(** * RTE-A typed tasking and audit chain

    A shallow embedding of [pkg/rte/task.go] (task validation, signing and
    verification) together with the hash-chained audit log, and the
    properties the design document states about them.

    Conventions of the embedding:
    - Go [int], [int64] and [time.Duration] are [Z]; arithmetic that can wrap
      is written with [wrap64].
    - Go [string] is [string] (a sequence of 8-bit characters); [[]byte] is
      [list byte].
    - A Go [error] result is [result unit]; a pointer that may be [nil] is an
      [option].
    - A Go [map] is a reference: a location into a store of [gmap]s.  Byte
      slices are taken by their contents. *)

From stdpp Require Import gmap strings list fin_maps pretty sorting.
From Stdlib Require Import ZArith Lia DecimalString DecimalZ DecimalPos.
From Stdlib.Strings Require Import Byte.

Local Open Scope Z_scope.
Set Warnings "-register-all".

(** ** Machine integers *)

Definition maxInt64 : Z := 2 ^ 63 - 1.
Definition minInt64 : Z := - 2 ^ 63.

(** Two's complement wrap-around of a 64-bit signed result. *)
Definition wrap64 (z : Z) : Z := (z + 2 ^ 63) mod 2 ^ 64 - 2 ^ 63.

Definition int64_range (z : Z) : Prop := minInt64 ≤ z ≤ maxInt64.

(** ** The parts of package [time] the validator relies on

    A [Time] is a wall-clock instant: whole seconds since January 1 of year 1,
    00:00:00 UTC and a nanosecond offset within the second.  Locations and
    monotonic readings are left out: every instant the package produces is
    taken with [time.Now().UTC()], which strips both, a task's creation time
    is the UTC instant of its specification, and [After], [Equal] and [Add]
    do not look at the location.  The one place where a Location would show
    is the RFC 3339 text of a creation time; what is needed of that text is
    stated where it is used ([rfc3339_exact]). *)
Module time.

Definition Duration : Type := Z.
Definition Nanosecond : Duration := 1.
Definition Second : Duration := 1000000000.

Record Time : Type := mkTime { sec : Z; nsec : Z }.

(** Instants built by the library keep [nsec] within one second and
    [sec] within an [int64]. *)
Definition wf (t : Time) : Prop :=
  int64_range (sec t) ∧ 0 ≤ nsec t < 1000000000.

Definition After (t u : Time) : bool :=
  (sec u <? sec t) || ((sec t =? sec u) && (nsec u <? nsec t)).

Definition Before (t u : Time) : bool :=
  (sec t <? sec u) || ((sec t =? sec u) && (nsec t <? nsec u)).

Definition Equal (t u : Time) : bool :=
  (sec t =? sec u) && (nsec t =? nsec u).

(** [addSec] saturates instead of wrapping when the sum leaves [int64]. *)
Definition addSec (s d : Z) : Z :=
  let sum := wrap64 (s + d) in
  if Bool.eqb (s <? sum) (0 <? d) then sum
  else if 0 <? d then maxInt64
  else - maxInt64.

(** [t.Add(d)]: Go's [/] and [%] truncate towards zero. *)
Definition Add (t : Time) (d : Duration) : Time :=
  let dsec := Z.quot d 1000000000 in
  let ns := nsec t + Z.rem d 1000000000 in
  if 1000000000 <=? ns then mkTime (addSec (sec t) (wrap64 (dsec + 1))) (ns - 1000000000)
  else if ns <? 0 then mkTime (addSec (sec t) (wrap64 (dsec - 1))) (ns + 1000000000)
  else mkTime (addSec (sec t) dsec) ns.

(** The instant as a count of nanoseconds, used to relate [Add] and
    [Before] to ordinary arithmetic. *)
Definition nanos (t : Time) : Z := sec t * 1000000000 + nsec t.

End time.

(** ** Errors

    An error value is recorded by the call that builds it: [errors.New(text)]
    or [fmt.Errorf(format, args...)].  The verb [%w] wraps another error. *)
Inductive error : Type :=
  | errors_New (text : string)
  | fmt_Errorf (format : string) (args : list fmt_arg)
with fmt_arg : Type :=
  | ArgString (s : string)
  | ArgInt (z : Z)
  | ArgRFC3339 (t : time.Time)   (* the text [t.UTC().Format(time.RFC3339)] *)
  | ArgError (e : error).

Inductive result (A : Type) : Type :=
  | Ok (a : A)
  | Err (e : error).
Arguments Ok {A} a.
Arguments Err {A} e.


(** ** Task model *)

Abbreviation TaskType := string (only parsing).
Abbreviation TaskState := string (only parsing).

Definition TaskSimulateLogin : TaskType := "simulate_login".
Definition TaskSimulateBeacon : TaskType := "simulate_beacon".
Definition TaskInventory : TaskType := "inventory".
Definition TaskEmitSynthetic : TaskType := "emit_synthetic".

Definition StatePending : TaskState := "pending".
Definition StateExecuting : TaskState := "executing".
Definition StateCancelled : TaskState := "cancelled".
Definition StateCompleted : TaskState := "completed".
Definition StateFailed : TaskState := "failed".

Definition maxTTLSeconds : Z := 3600.
Definition minTTLSeconds : Z := 1.

Definition allowedTaskTypes : gset TaskType :=
  {[ TaskSimulateLogin; TaskSimulateBeacon; TaskInventory; TaskEmitSynthetic ]}.

Definition validTaskStates : gset TaskState :=
  {[ StatePending; StateExecuting; StateCancelled; StateCompleted; StateFailed ]}.

(** A map value is a reference to a map object, or [nil]. *)
Definition loc : Type := positive.

Record Task : Type := mkTask {
  ID : string;
  Engagement : string;
  Type_ : TaskType;
  CreatedAt : time.Time;
  TTLSeconds : Z;
  Operator : string;
  ApprovedBy : string;
  State : TaskState;
  CancelToken : string;
  Params : option loc;
}.

Record SignedTask : Type := mkSignedTask {
  Task_ : Task;
  PublicKey : list byte;
  Signature : list byte;
}.

(** [t.CreatedAt.Add(time.Duration(t.TTLSeconds) * time.Second)] *)
Definition expiry (t : Task) : time.Time :=
  time.Add (CreatedAt t) (wrap64 (TTLSeconds t * time.Second)).

(** [Validate], a method on a [Task] pointer. *)
Definition Validate (t : option Task) (now : time.Time) : result unit :=
  match t with
  | None => Err (errors_New "task is nil")
  | Some t =>
    if decide (ID t = "") then Err (errors_New "task ID is required")
    else if decide (Engagement t = "") then Err (errors_New "engagement is required")
    else if decide (Operator t = "") then Err (errors_New "operator is required")
    else if decide (ApprovedBy t = "") then Err (errors_New "approved_by is required")
    else if negb (bool_decide (Type_ t ∈ allowedTaskTypes)) then
      Err (fmt_Errorf "unsupported task type: %s" [ArgString (Type_ t)])
    else if (TTLSeconds t <? minTTLSeconds) || (maxTTLSeconds <? TTLSeconds t) then
      Err (fmt_Errorf "TTLSeconds must be between %d and %d, got %d"
             [ArgInt minTTLSeconds; ArgInt maxTTLSeconds; ArgInt (TTLSeconds t)])
    else if negb (bool_decide (State t ∈ validTaskStates)) then
      Err (fmt_Errorf "invalid task state: %s" [ArgString (State t)])
    else
      let expiry := expiry t in
      if time.After now expiry || time.Equal now expiry then
        Err (fmt_Errorf "task expired at %s (now: %s)" [ArgRFC3339 expiry; ArgRFC3339 now])
      else Ok tt
  end.

(** *** The validation conditions, one by one *)

Inductive Condition : Type :=
  | CondID | CondEngagement | CondOperator | CondApprover
  | CondType | CondTTL | CondState | CondExpiry.

Definition holds (c : Condition) (t : Task) (now : time.Time) : Prop :=
  match c with
  | CondID => ID t ≠ ""
  | CondEngagement => Engagement t ≠ ""
  | CondOperator => Operator t ≠ ""
  | CondApprover => ApprovedBy t ≠ ""
  | CondType => Type_ t ∈ allowedTaskTypes
  | CondTTL => 1 ≤ TTLSeconds t ≤ 3600
  | CondState => State t ∈ validTaskStates
  | CondExpiry => time.Before now (expiry t) = true
  end.

(** The error [Validate] reports for each condition. *)
Definition violation_error (c : Condition) (t : Task) (now : time.Time) : error :=
  match c with
  | CondID => errors_New "task ID is required"
  | CondEngagement => errors_New "engagement is required"
  | CondOperator => errors_New "operator is required"
  | CondApprover => errors_New "approved_by is required"
  | CondType => fmt_Errorf "unsupported task type: %s" [ArgString (Type_ t)]
  | CondTTL =>
      fmt_Errorf "TTLSeconds must be between %d and %d, got %d"
        [ArgInt 1; ArgInt 3600; ArgInt (TTLSeconds t)]
  | CondState => fmt_Errorf "invalid task state: %s" [ArgString (State t)]
  | CondExpiry =>
      fmt_Errorf "task expired at %s (now: %s)" [ArgRFC3339 (expiry t); ArgRFC3339 now]
  end.

Definition ExpiredError (t : Task) (now : time.Time) : error :=
  violation_error CondExpiry t now.

(** The conditions that do not depend on the clock. *)
Definition static_ok (t : Task) : Prop :=
  ∀ c, c ≠ CondExpiry → ∀ now, holds c t now.

(** ** JSON documents

    The JSON value that [encoding/json] writes for a Go value: the external
    representation of tasks and signed tasks is a JSON object whose members
    follow the struct tags.  A string of the document is the string a reader
    of the text gets back; the byte layout of the text (quotes, escapes) is
    left to [json_text] below. *)
Inductive json : Type :=
  | JNull
  | JString (s : string)
  | JNumber (n : Z)
  | JObject (members : list (string * json)).

(** ** Primitives supplied by the Go standard library

    The signature scheme ([crypto/ed25519]), the byte layout of a JSON
    document, the RFC 3339 text of an instant and base64 are external to the
    package; the embedding is parametric in them. [ed25519.Sign] and
    [ed25519.Verify] panic on keys of the wrong length; both callers check
    the lengths first. *)
Class Primitives : Type := {
  ed25519_NewKeyFromSeed : list byte → list byte;
  ed25519_Sign : list byte → list byte → list byte;
  ed25519_Verify : list byte → list byte → list byte → bool;
  json_text : json → list byte;
  Time_format : time.Time → string;
  Time_parse : string → option time.Time;
  base64_encode : list byte → string;
  base64_decode : string → option (list byte);
}.

Definition ed25519_PublicKeySize : nat := 32.
Definition ed25519_PrivateKeySize : nat := 64.
Definition ed25519_SignatureSize : nat := 64.
Definition ed25519_SeedSize : nat := 32.

(** ** The ambient state the package reads

    [time.Now()] reads the wall clock, [rand.Reader] is the process-wide
    entropy source, and map objects live in a shared store. *)
Record World : Type := mkWorld {
  wall_clock : time.Time;
  rand_Reader : list byte;
  maps : gmap loc (gmap string string);
}.

(** [time.Now().UTC()] *)
Definition time_Now (w : World) : time.Time := wall_clock w.

Definition set_clock (now : time.Time) (w : World) : World :=
  {| wall_clock := now; rand_Reader := rand_Reader w; maps := maps w |}.

Definition set_maps (h : gmap loc (gmap string string)) (w : World) : World :=
  {| wall_clock := wall_clock w; rand_Reader := rand_Reader w; maps := h |}.

(** The entries a [Params] reference denotes; a [nil] map has none. *)
Definition deref (w : World) (p : option loc) : gmap string string :=
  match p with
  | None => ∅
  | Some l => default ∅ (maps w !! l)
  end.

(** References held by a task point at allocated map objects. *)
Definition allocated (w : World) (p : option loc) : Prop :=
  match p with
  | None => True
  | Some l => is_Some (maps w !! l)
  end.

(** *** Encoding a task *)

(** [Time.MarshalJSON] refuses instants whose year is outside [0,9999]:
    year 0 starts 366 days before, and year 10000 starts 3652059 days after,
    January 1 of year 1. *)
Definition year_in_range (t : time.Time) : bool :=
  (-31622400 <=? time.sec t) && (time.sec t <? 315537897600).

Definition Time_MarshalJSON `{Primitives} (t : time.Time) : result string :=
  if year_in_range t then Ok (Time_format t)
  else Err (errors_New "Time.MarshalJSON: year outside of range [0,9999]").

(** *** Strings that are not valid UTF-8

    A Go string is any sequence of bytes.  The encoder copies the valid
    UTF-8 sequences of a string and writes U+FFFD in place of every byte at
    which [utf8.DecodeRuneInString] reports an error. *)

Definition byte_in (lo hi : N) (a : Ascii.ascii) : bool :=
  ((lo <=? Ascii.N_of_ascii a) && (Ascii.N_of_ascii a <=? hi))%N.

(** The length and the range of the second byte that a first byte
    announces; length 0 for a byte that cannot start a sequence. *)
Definition utf8_first (a : Ascii.ascii) : nat * N * N :=
  if byte_in 194 223 a then (2%nat, 128%N, 191%N)
  else if byte_in 224 224 a then (3%nat, 160%N, 191%N)
  else if byte_in 225 236 a then (3%nat, 128%N, 191%N)
  else if byte_in 237 237 a then (3%nat, 128%N, 159%N)
  else if byte_in 238 239 a then (3%nat, 128%N, 191%N)
  else if byte_in 240 240 a then (4%nat, 144%N, 191%N)
  else if byte_in 241 243 a then (4%nat, 128%N, 191%N)
  else if byte_in 244 244 a then (4%nat, 128%N, 143%N)
  else (0%nat, 0%N, 0%N).

(** The width of the rune at the head of [s]; 0 stands for [RuneError]
    of width 1 (a byte that starts no valid sequence, or a sequence cut
    short). *)
Definition rune_size (s : string) : nat :=
  match s with
  | EmptyString => 0%nat
  | String a0 r =>
      if byte_in 0 127 a0 then 1%nat
      else
        let '(sz, lo, hi) := utf8_first a0 in
        match sz, r with
        | 2%nat, String a1 _ => if byte_in lo hi a1 then 2%nat else 0%nat
        | 3%nat, String a1 (String a2 _) =>
            if byte_in lo hi a1 && byte_in 128 191 a2 then 3%nat else 0%nat
        | 4%nat, String a1 (String a2 (String a3 _)) =>
            if byte_in lo hi a1 && byte_in 128 191 a2 && byte_in 128 191 a3
            then 4%nat else 0%nat
        | _, _ => 0%nat
        end
  end.

(** U+FFFD in UTF-8: the bytes EF BF BD. *)
Definition replacement_char : string :=
  String (Ascii.ascii_of_N 239) (String (Ascii.ascii_of_N 191)
    (String (Ascii.ascii_of_N 189) EmptyString)).

(** [pending] counts the bytes still to copy of the sequence being read. *)
Fixpoint coerce_from (pending : nat) (s : string) : string :=
  match s with
  | EmptyString => EmptyString
  | String a r =>
      match pending with
      | S p => String a (coerce_from p r)
      | O =>
          match rune_size (String a r) with
          | O => replacement_char +:+ coerce_from 0 r
          | S k => String a (coerce_from k r)
          end
      end
  end.

(** The string as the encoder writes it. *)
Definition utf8_coerce (s : string) : string := coerce_from 0 s.

(** Valid UTF-8 is what the encoder leaves as it is. *)
Definition utf8_valid (s : string) : Prop := utf8_coerce s = s.

(** Map keys are written in sorted order. *)
Definition key_le (p q : string * string) : Prop := String.leb p.1 q.1 = true.

#[global] Instance key_le_dec : RelDecision key_le :=
  λ p q, decide (String.leb p.1 q.1 = true).

Definition sorted_entries (m : gmap string string) : list (string * string) :=
  merge_sort key_le (map_to_list m).

(** The entries are sorted by the key as the map holds it; key and value
    are then written like any other string, so that two keys can come out
    as the same member name. *)
Definition params_json (m : gmap string string) : json :=
  JObject ((λ kv : string * string, (utf8_coerce kv.1, JString (utf8_coerce kv.2)))
             <$> sorted_entries m).

(** The members of the task object, following the struct tags; the two
    [omitempty] members are left out when empty. *)
Definition Task_members (t : Task) (created_at : string) (m : gmap string string)
    : list (string * json) :=
  [ ("id", JString (utf8_coerce (ID t)));
    ("engagement", JString (utf8_coerce (Engagement t)));
    ("type", JString (utf8_coerce (Type_ t)));
    ("created_at", JString created_at);
    ("ttl_seconds", JNumber (TTLSeconds t));
    ("operator", JString (utf8_coerce (Operator t)));
    ("approved_by", JString (utf8_coerce (ApprovedBy t)));
    ("state", JString (utf8_coerce (State t))) ]
  ++ (if decide (CancelToken t = "") then []
      else [("cancel_token", JString (utf8_coerce (CancelToken t)))])
  ++ (if decide (size m = 0%nat) then [] else [("params", params_json m)]).

(** The encoder reports a failing [MarshalJSON] method as a
    [json.MarshalerError] that wraps the method's error. *)
Definition json_MarshalerError (type : string) (e : error) : error :=
  fmt_Errorf "json: error calling MarshalJSON for type %s: %w" [ArgString type; ArgError e].

Definition Task_to_json `{Primitives} (w : World) (t : Task) : result json :=
  match Time_MarshalJSON (CreatedAt t) with
  | Err e => Err (json_MarshalerError "time.Time" e)
  | Ok created_at => Ok (JObject (Task_members t created_at (deref w (Params t))))
  end.

(** [json.Marshal(task)]: the canonical payload that is signed. *)
Definition json_Marshal_Task `{Primitives} (w : World) (t : Task) : result (list byte) :=
  match Task_to_json w t with
  | Err e => Err e
  | Ok j => Ok (json_text j)
  end.

(** ** Signing and verification *)

(** [SignTask] *)
Definition SignTask `{Primitives} (w : World) (task : Task) (priv pub : list byte)
    : result SignedTask :=
  if decide (length priv ≠ ed25519_PrivateKeySize) then
    Err (errors_New "invalid private key size")
  else if decide (length pub ≠ ed25519_PublicKeySize) then
    Err (errors_New "invalid public key size")
  else
    match Validate (Some task) (time_Now w) with
    | Err err => Err (fmt_Errorf "task validation failed: %w" [ArgError err])
    | Ok _ =>
      match json_Marshal_Task w task with
      | Err err => Err (fmt_Errorf "marshal task: %w" [ArgError err])
      | Ok payload =>
        let sig := ed25519_Sign priv payload in
        Ok {| Task_ := task; PublicKey := pub; Signature := sig |}
      end
    end.

(** [VerifyTask] *)
Definition VerifyTask `{Primitives} (w : World) (st : option SignedTask) : result unit :=
  match st with
  | None => Err (errors_New "signed task is nil")
  | Some st =>
    if decide (length (PublicKey st) ≠ ed25519_PublicKeySize) then
      Err (errors_New "invalid public key size")
    else if decide (length (Signature st) ≠ ed25519_SignatureSize) then
      Err (errors_New "invalid signature size")
    else
      match json_Marshal_Task w (Task_ st) with
      | Err err => Err (fmt_Errorf "marshal task: %w" [ArgError err])
      | Ok payload =>
        if negb (ed25519_Verify (PublicKey st) payload (Signature st)) then
          Err (errors_New "signature verification failed")
        else Validate (Some (Task_ st)) (time_Now w)
      end
  end.

(** The signature check of [VerifyTask]: the payload is recomputed from the
    embedded task and checked against the stored key and signature. *)
Definition signature_check `{Primitives} (w : World) (st : SignedTask) : bool :=
  match json_Marshal_Task w (Task_ st) with
  | Ok payload => ed25519_Verify (PublicKey st) payload (Signature st)
  | Err _ => false
  end.

(** [ed25519.GenerateKey(rand)]: reads a seed from [rand] with [io.ReadFull]
    and derives the key pair; the public key is the second half of the
    private key. *)
Definition ed25519_GenerateKey `{Primitives} (rand : list byte)
    : result (list byte * list byte) * list byte :=
  if decide (length rand = 0)%nat then (Err (errors_New "EOF"), [])
  else if decide (length rand < ed25519_SeedSize)%nat then
    (Err (errors_New "unexpected EOF"), [])
  else
    let priv := ed25519_NewKeyFromSeed (take ed25519_SeedSize rand) in
    (Ok (drop 32 priv, priv), drop ed25519_SeedSize rand).

(** [GenerateKeyPair] *)
Definition GenerateKeyPair `{Primitives} (w : World)
    : result (list byte * list byte) * World :=
  let '(r, rest) := ed25519_GenerateKey (rand_Reader w) in
  (r, {| wall_clock := wall_clock w; rand_Reader := rest; maps := maps w |}).

(** A key pair as [ed25519.GenerateKey] derives it from a seed. *)
Definition key_pair `{Primitives} (priv pub : list byte) : Prop :=
  ∃ seed, length seed = ed25519_SeedSize ∧
    priv = ed25519_NewKeyFromSeed seed ∧ pub = drop 32 priv.

(** What the signature scheme guarantees. *)
Class PrimitivesCorrect `{Primitives} : Prop := {
  NewKeyFromSeed_length seed :
    length seed = ed25519_SeedSize →
    length (ed25519_NewKeyFromSeed seed) = ed25519_PrivateKeySize;
  Sign_length priv msg :
    length priv = ed25519_PrivateKeySize →
    length (ed25519_Sign priv msg) = ed25519_SignatureSize;
  Verify_Sign priv pub msg :
    key_pair priv pub →
    ed25519_Verify pub msg (ed25519_Sign priv msg) = true;
}.

(** ** The external representation of a signed task *)

#[global] Instance result_bind : MBind result :=
  λ A B f r, match r with Ok a => f a | Err e => Err e end.

(** [[]byte] members are written as base64 text. *)
Definition bytes_json `{Primitives} (b : list byte) : json := JString (base64_encode b).

Definition SignedTask_to_json `{Primitives} (w : World) (st : SignedTask) : result json :=
  tj ← Task_to_json w (Task_ st);
  Ok (JObject [ ("task", tj);
                ("public_key", bytes_json (PublicKey st));
                ("signature", bytes_json (Signature st)) ]).

(** [json.Marshal(st)], as the JSON value that the bytes written denote:
    the strings are already as the encoder writes them, and the creation
    time is the text [Time.MarshalJSON] returns. *)
Definition json_Marshal_SignedTask `{Primitives} (w : World) (st : SignedTask) : result json :=
  SignedTask_to_json w st.

(** *** Decoding

    [json.Unmarshal] walks the members of the object in order and stores
    each one in the field carrying that tag; [null] leaves a string, number
    or instant as it is and resets a slice or a map to [nil]; members with
    other names are skipped. *)

(** A member name selects the field whose tag it equals, or else the field
    whose tag it equals under case folding.  The tags here are lower-case
    ASCII and stay distinct when folded, so one folded comparison decides
    both.  Besides the ASCII letters, only the Kelvin sign (E2 84 AA) folds
    to a letter of these tags, [k], and only the long s (C5 BF) to [s]. *)
Definition upper (a : Ascii.ascii) : Ascii.ascii :=
  if byte_in 97 122 a then Ascii.ascii_of_N (Ascii.N_of_ascii a - 32) else a.

Fixpoint fold_name (s : string) : string :=
  match s with
  | EmptyString => EmptyString
  | String a s1 =>
      match s1 with
      | String b s2 =>
          if byte_in 197 197 a && byte_in 191 191 b then String (Ascii.ascii_of_N 83) (fold_name s2)
          else
            match s2 with
            | String c s3 =>
                if byte_in 226 226 a && byte_in 132 132 b && byte_in 170 170 c
                then String (Ascii.ascii_of_N 75) (fold_name s3)
                else String (upper a) (fold_name s1)
            | EmptyString => String (upper a) (fold_name s1)
            end
      | EmptyString => String (upper a) EmptyString
      end
  end.

Definition names (k tag : string) : bool := String.eqb (fold_name k) (fold_name tag).

Definition zero_Time : time.Time := time.mkTime 0 0.

Definition zero_Task : Task :=
  {| ID := ""; Engagement := ""; Type_ := ""; CreatedAt := zero_Time; TTLSeconds := 0;
     Operator := ""; ApprovedBy := ""; State := ""; CancelToken := ""; Params := None |}.

Definition zero_SignedTask : SignedTask :=
  {| Task_ := zero_Task; PublicKey := []; Signature := [] |}.

Definition with_ID (v : string) (t : Task) : Task :=
  mkTask v (Engagement t) (Type_ t) (CreatedAt t) (TTLSeconds t) (Operator t)
         (ApprovedBy t) (State t) (CancelToken t) (Params t).
Definition with_Engagement (v : string) (t : Task) : Task :=
  mkTask (ID t) v (Type_ t) (CreatedAt t) (TTLSeconds t) (Operator t)
         (ApprovedBy t) (State t) (CancelToken t) (Params t).
Definition with_Type (v : TaskType) (t : Task) : Task :=
  mkTask (ID t) (Engagement t) v (CreatedAt t) (TTLSeconds t) (Operator t)
         (ApprovedBy t) (State t) (CancelToken t) (Params t).
Definition with_CreatedAt (v : time.Time) (t : Task) : Task :=
  mkTask (ID t) (Engagement t) (Type_ t) v (TTLSeconds t) (Operator t)
         (ApprovedBy t) (State t) (CancelToken t) (Params t).
Definition with_TTLSeconds (v : Z) (t : Task) : Task :=
  mkTask (ID t) (Engagement t) (Type_ t) (CreatedAt t) v (Operator t)
         (ApprovedBy t) (State t) (CancelToken t) (Params t).
Definition with_Operator (v : string) (t : Task) : Task :=
  mkTask (ID t) (Engagement t) (Type_ t) (CreatedAt t) (TTLSeconds t) v
         (ApprovedBy t) (State t) (CancelToken t) (Params t).
Definition with_ApprovedBy (v : string) (t : Task) : Task :=
  mkTask (ID t) (Engagement t) (Type_ t) (CreatedAt t) (TTLSeconds t) (Operator t)
         v (State t) (CancelToken t) (Params t).
Definition with_State (v : TaskState) (t : Task) : Task :=
  mkTask (ID t) (Engagement t) (Type_ t) (CreatedAt t) (TTLSeconds t) (Operator t)
         (ApprovedBy t) v (CancelToken t) (Params t).
Definition with_CancelToken (v : string) (t : Task) : Task :=
  mkTask (ID t) (Engagement t) (Type_ t) (CreatedAt t) (TTLSeconds t) (Operator t)
         (ApprovedBy t) (State t) v (Params t).
Definition with_Params (v : option loc) (t : Task) : Task :=
  mkTask (ID t) (Engagement t) (Type_ t) (CreatedAt t) (TTLSeconds t) (Operator t)
         (ApprovedBy t) (State t) (CancelToken t) v.

Definition decode_string (j : json) (old : string) : result string :=
  match j with
  | JString s => Ok s
  | JNull => Ok old
  | _ => Err (errors_New "json: cannot unmarshal value into Go value of type string")
  end.

Definition decode_int (j : json) (old : Z) : result Z :=
  match j with
  | JNumber n =>
      if (minInt64 <=? n) && (n <=? maxInt64) then Ok n
      else Err (errors_New "json: cannot unmarshal number into Go value of type int")
  | JNull => Ok old
  | _ => Err (errors_New "json: cannot unmarshal value into Go value of type int")
  end.

Definition decode_Time `{Primitives} (j : json) (old : time.Time) : result time.Time :=
  match j with
  | JString s =>
      match Time_parse s with
      | Some t => Ok t
      | None => Err (errors_New "parsing time: cannot parse as RFC 3339")
      end
  | JNull => Ok old
  | _ => Err (errors_New "Time.UnmarshalJSON: input is not a JSON string")
  end.

Definition decode_bytes `{Primitives} (j : json) : result (list byte) :=
  match j with
  | JString s =>
      match base64_decode s with
      | Some b => Ok b
      | None => Err (errors_New "illegal base64 data")
      end
  | JNull => Ok []
  | _ => Err (errors_New "json: cannot unmarshal value into Go value of type []uint8")
  end.

Fixpoint decode_entries (ms : list (string * json)) (m : gmap string string)
    : result (gmap string string) :=
  match ms with
  | [] => Ok m
  | (k, v) :: ms => s ← decode_string v ""; decode_entries ms (<[k := s]> m)
  end.

(** A [nil] map is replaced by a newly allocated one before the entries are
    stored. *)
Definition decode_Params (w : World) (j : json) (old : option loc)
    : result (World * option loc) :=
  match j with
  | JNull => Ok (w, None)
  | JObject ms =>
      let l := match old with Some l => l | None => fresh (dom (maps w)) end in
      m ← decode_entries ms (deref w old);
      Ok (set_maps (<[l := m]> (maps w)) w, Some l)
  | _ => Err (errors_New "json: cannot unmarshal value into Go value of type map[string]string")
  end.

Definition decode_Task_member `{Primitives} (w : World) (t : Task) (k : string) (v : json)
    : result (World * Task) :=
  if names k "id" then s ← decode_string v (ID t); Ok (w, with_ID s t)
  else if names k "engagement" then
    s ← decode_string v (Engagement t); Ok (w, with_Engagement s t)
  else if names k "type" then s ← decode_string v (Type_ t); Ok (w, with_Type s t)
  else if names k "created_at" then
    c ← decode_Time v (CreatedAt t); Ok (w, with_CreatedAt c t)
  else if names k "ttl_seconds" then
    n ← decode_int v (TTLSeconds t); Ok (w, with_TTLSeconds n t)
  else if names k "operator" then
    s ← decode_string v (Operator t); Ok (w, with_Operator s t)
  else if names k "approved_by" then
    s ← decode_string v (ApprovedBy t); Ok (w, with_ApprovedBy s t)
  else if names k "state" then s ← decode_string v (State t); Ok (w, with_State s t)
  else if names k "cancel_token" then
    s ← decode_string v (CancelToken t); Ok (w, with_CancelToken s t)
  else if names k "params" then
    '(w', p) ← decode_Params w v (Params t); Ok (w', with_Params p t)
  else Ok (w, t).

Fixpoint decode_Task_members `{Primitives} (w : World) (t : Task) (ms : list (string * json))
    : result (World * Task) :=
  match ms with
  | [] => Ok (w, t)
  | (k, v) :: ms => '(w', t') ← decode_Task_member w t k v; decode_Task_members w' t' ms
  end.

Definition decode_Task `{Primitives} (w : World) (t : Task) (j : json) : result (World * Task) :=
  match j with
  | JObject ms => decode_Task_members w t ms
  | JNull => Ok (w, t)
  | _ => Err (errors_New "json: cannot unmarshal value into Go value of type rte.Task")
  end.

Definition decode_SignedTask_member `{Primitives} (w : World) (st : SignedTask)
    (k : string) (v : json) : result (World * SignedTask) :=
  if names k "task" then
    '(w', t) ← decode_Task w (Task_ st) v;
    Ok (w', mkSignedTask t (PublicKey st) (Signature st))
  else if names k "public_key" then
    b ← decode_bytes v; Ok (w, mkSignedTask (Task_ st) b (Signature st))
  else if names k "signature" then
    b ← decode_bytes v; Ok (w, mkSignedTask (Task_ st) (PublicKey st) b)
  else Ok (w, st).

Fixpoint decode_SignedTask_members `{Primitives} (w : World) (st : SignedTask)
    (ms : list (string * json)) : result (World * SignedTask) :=
  match ms with
  | [] => Ok (w, st)
  | (k, v) :: ms =>
      '(w', st') ← decode_SignedTask_member w st k v; decode_SignedTask_members w' st' ms
  end.

(** [var st2 SignedTask; json.Unmarshal(data, &st2)], from the JSON value
    that [data] denotes: a string is what the decoder unquotes, a member
    name selects its field by [names], and a creation time is what
    [Time.UnmarshalJSON] parses from its text. *)
Definition json_Unmarshal_SignedTask `{Primitives} (w : World) (doc : json)
    : result (World * SignedTask) :=
  match doc with
  | JObject ms => decode_SignedTask_members w zero_SignedTask ms
  | JNull => Ok (w, zero_SignedTask)
  | _ => Err (errors_New "json: cannot unmarshal value into Go value of type rte.SignedTask")
  end.

(** The strings of a task, its parameter keys and values included, are
    valid UTF-8. *)
Definition Task_utf8 (w : World) (t : Task) : Prop :=
  utf8_valid (ID t) ∧ utf8_valid (Engagement t) ∧ utf8_valid (Type_ t) ∧
  utf8_valid (Operator t) ∧ utf8_valid (ApprovedBy t) ∧ utf8_valid (State t) ∧
  utf8_valid (CancelToken t) ∧
  map_Forall (λ k v, utf8_valid k ∧ utf8_valid v) (deref w (Params t)).

(** Values of the Go types: instants are well formed, [int] fits 64 bits. *)
Definition Task_wf (t : Task) : Prop :=
  time.wf (CreatedAt t) ∧ int64_range (TTLSeconds t).

(** An instant that [Time.UnmarshalJSON] reads back from the text that
    [Time.MarshalJSON] writes for it.  The text holds the nanoseconds, and
    the zone offset in hours and minutes: an instant held in UTC, or in a
    zone whose offset is a whole number of minutes, is read back as it was;
    the seconds of a zone offset are dropped from the text and come back
    added to the instant.  No law is assumed here: the condition is a
    hypothesis wherever a creation time has to come back. *)
Definition rfc3339_exact `{Primitives} (t : time.Time) : Prop :=
  Time_parse (Time_format t) = Some t.

(** Base64 gives back the bytes that it was given. *)
Class Base64Lossless `{Primitives} : Prop := {
  base64_decode_encode b : base64_decode (base64_encode b) = Some b;
}.

(** ** What a caller can do to its own [Task] value after signing

    The caller keeps the variable it passed to [SignTask].  It can assign to
    any field, and it can update the map its [Params] field refers to. *)
Inductive mutation : Type :=
  | AssignID (v : string)
  | AssignEngagement (v : string)
  | AssignType (v : TaskType)
  | AssignCreatedAt (v : time.Time)
  | AssignTTLSeconds (v : Z)
  | AssignOperator (v : string)
  | AssignApprovedBy (v : string)
  | AssignState (v : TaskState)
  | AssignCancelToken (v : string)
  | AssignParams (p : option loc)              (* task.Params = m, m an existing map or nil *)
  | AssignNewParams (m : gmap string string)   (* task.Params = map[string]string{...} *)
  | ParamsStore (k v : string)                 (* task.Params[k] = v *)
  | ParamsDelete (k : string).                 (* delete(task.Params, k) *)

(** [None] is a panic: storing into a [nil] map. *)
Definition mutate (w : World) (t : Task) (μ : mutation) : option (World * Task) :=
  match μ with
  | AssignID v => Some (w, with_ID v t)
  | AssignEngagement v => Some (w, with_Engagement v t)
  | AssignType v => Some (w, with_Type v t)
  | AssignCreatedAt v => Some (w, with_CreatedAt v t)
  | AssignTTLSeconds v => Some (w, with_TTLSeconds v t)
  | AssignOperator v => Some (w, with_Operator v t)
  | AssignApprovedBy v => Some (w, with_ApprovedBy v t)
  | AssignState v => Some (w, with_State v t)
  | AssignCancelToken v => Some (w, with_CancelToken v t)
  | AssignParams p => Some (w, with_Params p t)
  | AssignNewParams m =>
      let l := fresh (dom (maps w)) in
      Some (set_maps (<[l := m]> (maps w)) w, with_Params (Some l) t)
  | ParamsStore k v =>
      match Params t with
      | None => None
      | Some l => Some (set_maps (<[l := <[k := v]> (deref w (Some l))]> (maps w)) w, t)
      end
  | ParamsDelete k =>
      match Params t with
      | None => Some (w, t)
      | Some l => Some (set_maps (<[l := delete k (deref w (Some l))]> (maps w)) w, t)
      end
  end.

Definition is_assignment (μ : mutation) : bool :=
  match μ with
  | ParamsStore _ _ | ParamsDelete _ => false
  | _ => true
  end.

Fixpoint mutate_all (w : World) (t : Task) (μs : list mutation) : option (World * Task) :=
  match μs with
  | [] => Some (w, t)
  | μ :: μs =>
      match mutate w t μ with
      | Some (w', t') => mutate_all w' t' μs
      | None => None
      end
  end.

(** A run of mutations spares the map a signed task captured, [shared], when
    every in-place update is made while the caller's [Params] refers to
    another map. *)
Fixpoint spares (shared : option loc) (w : World) (t : Task) (μs : list mutation) : Prop :=
  match μs with
  | [] => True
  | μ :: μs =>
      (is_assignment μ = false → Params t = shared → shared = None) ∧
      match mutate w t μ with
      | Some (w', t') => spares shared w' t' μs
      | None => True
      end
  end.

(** The clock reading and the map [shared] refers to are as in [w0]. *)
Definition agree (shared : option loc) (w0 w : World) : Prop :=
  time_Now w = time_Now w0 ∧ deref w shared = deref w0 shared ∧ allocated w shared.

(** Everything a task value denotes: its fields and the entries of the map
    it refers to. *)
Definition contents (w : World) (t : Task) : Task * gmap string string :=
  (t, deref w (Params t)).

(** ** A small executable instance of the primitives

    Enough to run the package on concrete inputs: a keyed checksum stands in
    for the signature scheme, a plain rendering for the JSON text, decimal
    nanoseconds for the RFC 3339 text. *)
Module Sample.

Definition checksum (msg : list byte) : list byte :=
  (λ i : nat,
     default x00
       (Byte.of_N (foldl (λ acc b, (acc * 31 + Byte.to_N b + N.of_nat i + 1) mod 256)%N 7%N msg)))
  <$> seq 0 32.

Fixpoint bytes_eqb (a b : list byte) : bool :=
  match a, b with
  | [], [] => true
  | x :: a, y :: b => Byte.eqb x y && bytes_eqb a b
  | _, _ => false
  end.

Definition NewKeyFromSeed (seed : list byte) : list byte := seed ++ reverse seed.

Definition Sign (priv msg : list byte) : list byte := drop 32 priv ++ checksum msg.

Definition Verify (pub msg sig : list byte) : bool := bytes_eqb sig (pub ++ checksum msg).

Definition quote : string := String (Ascii.ascii_of_nat 34) EmptyString.

Fixpoint render (j : json) : string :=
  match j with
  | JNull => "null"
  | JString s => quote +:+ s +:+ quote
  | JNumber n => pretty n
  | JObject ms =>
      "{" +:+
      (fix members (ms : list (string * json)) : string :=
         match ms with
         | [] => ""
         | (k, v) :: ms' =>
             quote +:+ k +:+ quote +:+ ":" +:+ render v +:+
             (match ms' with [] => "" | _ => "," end) +:+ members ms'
         end) ms
      +:+ "}"
  end.

Definition text (j : json) : list byte := String.list_byte_of_string (render j).

Definition format (t : time.Time) : string :=
  DecimalString.NilZero.string_of_int (Z.to_int (time.nanos t)).

Definition parse (s : string) : option time.Time :=
  match DecimalString.NilZero.int_of_string s with
  | Some d =>
      let z := Z.of_int d in
      Some (time.mkTime (z `div` 1000000000) (z `mod` 1000000000))
  | None => None
  end.

#[global] Instance primitives : Primitives := {|
  ed25519_NewKeyFromSeed := NewKeyFromSeed;
  ed25519_Sign := Sign;
  ed25519_Verify := Verify;
  json_text := text;
  Time_format := format;
  Time_parse := parse;
  base64_encode := String.string_of_list_byte;
  base64_decode := λ s, Some (String.list_byte_of_string s);
|}.

(** 2026-01-01T00:00:00Z *)
Definition now : time.Time := time.mkTime 63902822400 0.

Definition params : gmap string string := {[ "target" := "192.168.1.0/24" ]}.

Definition world : World :=
  {| wall_clock := now;
     rand_Reader := replicate 32 x2a ++ replicate 32 x07;
     maps := {[ 1%positive := params ]} |}.

(** The task of the README, created five minutes ago, with the parameters
    of the test suite. *)
Definition task : Task :=
  {| ID := "task-001"; Engagement := "eng-2026"; Type_ := TaskSimulateLogin;
     CreatedAt := time.mkTime (63902822400 - 300) 0; TTLSeconds := 600;
     Operator := "op-alice"; ApprovedBy := "lead-bob"; State := StatePending;
     CancelToken := ""; Params := Some 1%positive |}.

Definition seed : list byte := replicate 32 x2a.
Definition priv : list byte := NewKeyFromSeed seed.
Definition pub : list byte := drop 32 priv.

(** The same world [s] seconds later. *)
Definition later (s : Z) : World := set_clock (time.mkTime (63902822400 + s) 0) world.

(** The signed task [SignTask] returns for [task] in [world]. *)
Definition signed : SignedTask :=
  {| Task_ := task; PublicKey := pub;
     Signature :=
       Sign priv (text (JObject (Task_members task (format (CreatedAt task)) params))) |}.

(** The caller's world after [task.Params["target"] = "10.0.0.0/8"]. *)
Definition retargeted : World :=
  set_maps {[ 1%positive := <[ "target" := "10.0.0.0/8" ]> params ]} world.

(** Edits that rebind [Params] before storing into it. *)
Definition edits : list mutation :=
  [ AssignCancelToken "stop"; AssignNewParams ∅; ParamsStore "target" "10.0.0.0/8";
    AssignID "x" ].

(** Parameters under two keys that are not valid UTF-8: the single bytes
    FE and FF. *)
Definition xFE : string := String (Ascii.ascii_of_N 254) EmptyString.
Definition xFF : string := String (Ascii.ascii_of_N 255) EmptyString.
Definition clash_params : gmap string string := {[ xFE := "a"; xFF := "b" ]}.

(** The world in which the caller's map holds these parameters, and the
    signed task [SignTask] returns for [task] there. *)
Definition clash_world : World := set_maps {[ 1%positive := clash_params ]} world.

Definition clash_signed : SignedTask :=
  {| Task_ := task; PublicKey := pub;
     Signature :=
       Sign priv (text (JObject (Task_members task (format (CreatedAt task)) clash_params))) |}.


(** A task created on January 1 of year 10000. *)
Definition far_task : Task := with_CreatedAt (time.mkTime 315537897600 0) task.

End Sample.

(** ** The audit chain *)
Module AuditChain.














(** The fields of a record, by name. *)
Inductive field : Type :=
  | FSequence | FTimestamp | FOperator | FEngagement | FAction
  | FResultHash | FAuthorization | FTaskID | FPrevHash | FChainHash.

#[global] Instance field_eq_dec : EqDecision field.
Proof. solve_decision. Defined.










End AuditChain.

(** ** The order of the validation checks

    The position of each check in [Validate]: identifier, engagement,
    operator, approver, type, TTL, state, expiry. *)
Definition check_position (c : Condition) : nat :=
  match c with
  | CondID => 0
  | CondEngagement => 1
  | CondOperator => 2
  | CondApprover => 3
  | CondType => 4
  | CondTTL => 5
  | CondState => 6
  | CondExpiry => 7
  end.

(** ** The infrastructure module ([terraform/rte_a_infra])

    The input variables of the module; [aws_region] defaults to
    ["us-east-1"] when the caller leaves it out. *)
Module Terraform.

Record Variables : Type := mkVariables {
  engagement_id : string;
  expiration_rfc3339 : string;
  operator_email : string;
  aws_region : option string;
}.

Definition region (v : Variables) : string := default "us-east-1" (aws_region v).

(** [locals { common_tags = {...} }] *)
Definition common_tags (v : Variables) : gmap string string :=
  list_to_map
    [ ("Owner", operator_email v);
      ("Engagement", engagement_id v);
      ("ExpiresAfter", expiration_rfc3339 v);
      ("AutoTeardown", "true");
      ("CostCenter", "rte-a");
      ("CreatedBy", operator_email v);
      ("Purpose", "rte-a-ephemeral");
      ("Layer", "L5-infrastructure") ].

(** [merge(a, b)]: the entries of both maps; on a shared key the later
    argument wins. *)
Definition merge (a b : gmap string string) : gmap string string := b ∪ a.

(** The [tags] argument of [aws_instance.rte_a_ephemeral]. *)
Definition instance_tags (v : Variables) : gmap string string :=
  merge (common_tags v) {[ "Name" := "rte-a-" +:+ engagement_id v ]}.

(** The [name] argument of [aws_cloudwatch_event_rule.rte_a_ttl_check]. *)
Definition ttl_rule_name (v : Variables) : string :=
  "rte-a-ttl-check-" +:+ engagement_id v.

(** The inputs of [terraform/examples/simple]. *)
Definition simple : Variables :=
  {| engagement_id := "eng-simple-example";
     expiration_rfc3339 := "2026-03-01T23:59:59Z";
     operator_email := "operator@example.com";
     aws_region := Some "us-east-1" |}.

End Terraform.

(** * Properties *)

(** ** Arithmetic of instants *)

Lemma wrap64_id z : int64_range z → wrap64 z = z.
Proof.
  unfold int64_range, minInt64, maxInt64, wrap64. intros Hz.
  rewrite Z.mod_small by lia. lia.
Qed.

Lemma Before_not_After_Equal now e :
  time.Before now e = negb (time.After now e || time.Equal now e).
Proof.
  unfold time.Before, time.After, time.Equal.
  destruct (Z.ltb_spec (time.sec now) (time.sec e)),
           (Z.ltb_spec (time.sec e) (time.sec now)),
           (Z.eqb_spec (time.sec now) (time.sec e)),
           (Z.ltb_spec (time.nsec now) (time.nsec e)),
           (Z.ltb_spec (time.nsec e) (time.nsec now)),
           (Z.eqb_spec (time.nsec now) (time.nsec e)); simpl; try reflexivity; lia.
Qed.

Lemma Equal_not_Before now e : time.Equal now e = true → time.Before now e = false.
Proof. intros H. rewrite Before_not_After_Equal, H, orb_true_r. reflexivity. Qed.

Lemma Before_nanos t u :
  time.wf t → time.wf u → time.Before t u = true ↔ time.nanos t < time.nanos u.
Proof.
  unfold time.wf, time.Before, time.nanos. intros [_ Ht] [_ Hu].
  rewrite orb_true_iff, andb_true_iff, !Z.ltb_lt, Z.eqb_eq. nia.
Qed.

(** Within the validated range of [TTLSeconds], and away from the end of
    representable time, the expiry instant is [CreatedAt] plus the TTL. *)
Lemma expiry_nanos t :
  time.wf (CreatedAt t) → 1 ≤ TTLSeconds t ≤ 3600 →
  time.sec (CreatedAt t) + TTLSeconds t ≤ maxInt64 →
  time.wf (expiry t) ∧
  time.nanos (expiry t) = time.nanos (CreatedAt t) + TTLSeconds t * 1000000000.
Proof.
  unfold time.wf, expiry, time.Add, time.nanos, time.Second, int64_range, minInt64, maxInt64.
  intros [Hs Hn] Httl Hmax.
  rewrite wrap64_id by (unfold int64_range, minInt64, maxInt64; lia).
  rewrite Z.quot_mul, Z.rem_mul by lia. rewrite Z.add_0_r.
  destruct (Z.leb_spec 1000000000 (time.nsec (CreatedAt t))); [lia|].
  destruct (Z.ltb_spec (time.nsec (CreatedAt t)) 0); [lia|]. simpl.
  unfold time.addSec.
  rewrite wrap64_id by (unfold int64_range, minInt64, maxInt64; lia).
  destruct (Z.ltb_spec (time.sec (CreatedAt t)) (time.sec (CreatedAt t) + TTLSeconds t)); [|lia].
  destruct (Z.ltb_spec 0 (TTLSeconds t)); [|lia]. simpl. lia.
Qed.

(** For instants the library builds, "strictly before the expiry" is the
    arithmetic comparison [now < CreatedAt + TTL] on nanosecond counts. *)
Lemma Before_expiry_nanos t now :
  time.wf now → time.wf (CreatedAt t) → 1 ≤ TTLSeconds t ≤ 3600 →
  time.sec (CreatedAt t) + TTLSeconds t ≤ maxInt64 →
  time.Before now (expiry t) = true ↔
  time.nanos now < time.nanos (CreatedAt t) + TTLSeconds t * 1000000000.
Proof.
  intros Hn Hc Httl Hmax. destruct (expiry_nanos t Hc Httl Hmax) as [Hwf Heq].
  rewrite (Before_nanos now (expiry t) Hn Hwf), Heq. reflexivity.
Qed.

(** ** The validator *)

Lemma Validate_static_ok t now :
  static_ok t →
  Validate (Some t) now =
    if time.Before now (expiry t) then Ok tt else Err (ExpiredError t now).
Proof.
  intros Hs.
  pose proof (Hs CondID ltac:(discriminate) now) as H1.
  pose proof (Hs CondEngagement ltac:(discriminate) now) as H2.
  pose proof (Hs CondOperator ltac:(discriminate) now) as H3.
  pose proof (Hs CondApprover ltac:(discriminate) now) as H4.
  pose proof (Hs CondType ltac:(discriminate) now) as H5.
  pose proof (Hs CondTTL ltac:(discriminate) now) as H6.
  pose proof (Hs CondState ltac:(discriminate) now) as H7.
  simpl in *. unfold Validate.
  repeat (case_decide; [congruence|]).
  rewrite !bool_decide_eq_true_2 by assumption. simpl.
  unfold minTTLSeconds, maxTTLSeconds.
  destruct (Z.ltb_spec (TTLSeconds t) 1); [lia|].
  destruct (Z.ltb_spec 3600 (TTLSeconds t)); [lia|]. simpl.
  rewrite Before_not_After_Equal.
  destruct (time.After now (expiry t) || time.Equal now (expiry t)); reflexivity.
Qed.

Lemma Validate_Ok_inv t now :
  Validate (Some t) now = Ok tt → ∀ c, holds c t now.
Proof.
  unfold Validate. intros H.
  repeat (case_decide; [discriminate|]).
  destruct (bool_decide (Type_ t ∈ allowedTaskTypes)) eqn:E5; [|discriminate].
  simpl in H. unfold minTTLSeconds, maxTTLSeconds in H.
  destruct (Z.ltb_spec (TTLSeconds t) 1); [discriminate|].
  destruct (Z.ltb_spec 3600 (TTLSeconds t)); [discriminate|]. simpl in H.
  destruct (bool_decide (State t ∈ validTaskStates)) eqn:E7; [|discriminate].
  simpl in H. apply bool_decide_eq_true_1 in E5, E7.
  destruct (time.After now (expiry t) || time.Equal now (expiry t)) eqn:E8; [discriminate|].
  intros []; simpl; try assumption; try lia.
  rewrite Before_not_After_Equal, E8. reflexivity.
Qed.

Lemma Validate_Ok_static t now : Validate (Some t) now = Ok tt → static_ok t.
Proof.
  intros H c Hc now'. pose proof (Validate_Ok_inv _ _ H c) as Hh.
  destruct c; try exact Hh. congruence.
Qed.

(** The conditions other than the violated one, as hypotheses. *)
Ltac use_others Hh :=
  try (pose proof (Hh CondID ltac:(discriminate)));
  try (pose proof (Hh CondEngagement ltac:(discriminate)));
  try (pose proof (Hh CondOperator ltac:(discriminate)));
  try (pose proof (Hh CondApprover ltac:(discriminate)));
  try (pose proof (Hh CondType ltac:(discriminate)));
  try (pose proof (Hh CondTTL ltac:(discriminate)));
  try (pose proof (Hh CondState ltac:(discriminate)));
  cbn [holds] in *.

Ltac ttl_cases t :=
  unfold minTTLSeconds, maxTTLSeconds;
  destruct (Z.ltb_spec (TTLSeconds t) 1); [try reflexivity; try lia|];
  destruct (Z.ltb_spec 3600 (TTLSeconds t)); [try reflexivity; try lia|];
  try lia; simpl.

(** C1. A task that meets all eight conditions validates, and a task that
    violates exactly one of them is rejected with the error of that
    condition. *)
Theorem Validate_conditions (t : Task) (now : time.Time) :
  ((∀ c, holds c t now) → Validate (Some t) now = Ok tt) ∧
  (∀ c, ¬ holds c t now → (∀ c', c' ≠ c → holds c' t now) →
        Validate (Some t) now = Err (violation_error c t now)).
Proof.
  split.
  - intros Hall.
    rewrite Validate_static_ok
      by (intros c Hc now'; specialize (Hall c); destruct c; try exact Hall; congruence).
    specialize (Hall CondExpiry). simpl in Hall. rewrite Hall. reflexivity.
  - intros c Hc Hh.
    destruct c; cbn [violation_error]; try (apply dec_stable in Hc); use_others Hh.
    + unfold Validate. rewrite decide_True by assumption. reflexivity.
    + unfold Validate. rewrite decide_False, decide_True by assumption. reflexivity.
    + unfold Validate. rewrite !decide_False, decide_True by assumption. reflexivity.
    + unfold Validate. rewrite !decide_False, decide_True by assumption. reflexivity.
    + unfold Validate. rewrite !decide_False by assumption.
      rewrite bool_decide_eq_false_2 by assumption. reflexivity.
    + unfold Validate. rewrite !decide_False by assumption.
      rewrite bool_decide_eq_true_2 by assumption. cbn [negb]. ttl_cases t.
    + unfold Validate. rewrite !decide_False by assumption.
      rewrite bool_decide_eq_true_2 by assumption. cbn [negb]. ttl_cases t.
      rewrite bool_decide_eq_false_2 by assumption. reflexivity.
    + rewrite Validate_static_ok.
      * destruct (time.Before now (expiry t)); [congruence|reflexivity].
      * intros c' Hc' now'. specialize (Hh c' Hc'). destruct c'; try exact Hh. congruence.
Qed.

Lemma Validate_conditions_witness :
  Validate (Some Sample.task) Sample.now = Ok tt ∧
  Validate (Some (with_TTLSeconds 5000 Sample.task)) Sample.now =
    Err (fmt_Errorf "TTLSeconds must be between %d and %d, got %d"
           [ArgInt 1; ArgInt 3600; ArgInt 5000]).
Proof.
  split.
  - apply (proj1 (Validate_conditions Sample.task Sample.now)).
    intros []; simpl; try discriminate; try (unfold Sample.task; simpl; lia);
      try reflexivity; apply bool_decide_unpack; vm_compute; exact I.
  - apply (proj2 (Validate_conditions (with_TTLSeconds 5000 Sample.task) Sample.now) CondTTL).
    + simpl. lia.
    + intros c' Hc'. destruct c'; simpl; try discriminate; try congruence;
        try reflexivity; apply bool_decide_unpack; vm_compute; exact I.
Defined.

(** C10. [Validate] on a nil task pointer returns an error, whatever the
    instant. *)
Theorem Validate_nil (now : time.Time) :
  Validate None now = Err (errors_New "task is nil").
Proof. reflexivity. Qed.

(** C2, as amended. At the boundary [now = CreatedAt + TTL] validation never
    succeeds; the error is the expiry error when the task passes the seven
    checks that come before the expiry test. *)
Theorem Validate_at_expiry (t : Task) (now : time.Time) :
  time.Equal now (expiry t) = true →
  Validate (Some t) now ≠ Ok tt ∧
  (static_ok t → Validate (Some t) now = Err (ExpiredError t now)).
Proof.
  intros Heq. apply Equal_not_Before in Heq. split.
  - intros HOk. pose proof (Validate_Ok_inv _ _ HOk CondExpiry) as Hb.
    simpl in Hb. congruence.
  - intros Hs. rewrite Validate_static_ok, Heq by assumption. reflexivity.
Qed.

Lemma Sample_task_static_ok : static_ok Sample.task.
Proof.
  apply (Validate_Ok_static Sample.task Sample.now). vm_compute. reflexivity.
Qed.

Lemma Validate_at_expiry_witness :
  Validate (Some Sample.task) (time_Now (Sample.later 300)) ≠ Ok tt ∧
  Validate (Some Sample.task) (time_Now (Sample.later 300)) =
    Err (ExpiredError Sample.task (time_Now (Sample.later 300))).
Proof.
  destruct (Validate_at_expiry Sample.task (time_Now (Sample.later 300))) as [H1 H2].
  - vm_compute. reflexivity.
  - split; [exact H1 | exact (H2 Sample_task_static_ok)].
Defined.

(** C2 as stated fails: at the boundary, a task without an identifier is
    rejected for the missing identifier, not for expiry. *)
Lemma Validate_at_expiry_counterexample :
  let t := with_ID "" Sample.task in
  let now := time_Now (Sample.later 300) in
  time.Equal now (expiry t) = true ∧
  Validate (Some t) now = Err (errors_New "task ID is required") ∧
  Validate (Some t) now ≠ Err (ExpiredError t now).
Proof. vm_compute. repeat split; try reflexivity. discriminate. Qed.

(** ** Signing and verification *)

Section attestation.
Context `{Primitives}.

Lemma json_Marshal_Task_deref w w' t :
  deref w' (Params t) = deref w (Params t) →
  json_Marshal_Task w' t = json_Marshal_Task w t.
Proof. unfold json_Marshal_Task, Task_to_json. intros ->. reflexivity. Qed.

Lemma json_Marshal_Task_in_range w t :
  year_in_range (CreatedAt t) = true →
  json_Marshal_Task w t =
    Ok (json_text (JObject (Task_members t (Time_format (CreatedAt t)) (deref w (Params t))))).
Proof.
  unfold json_Marshal_Task, Task_to_json, Time_MarshalJSON. intros ->. reflexivity.
Qed.

Lemma SignTask_Ok_inv w task priv pub st :
  SignTask w task priv pub = Ok st →
  length priv = ed25519_PrivateKeySize ∧ length pub = ed25519_PublicKeySize ∧
  Validate (Some task) (time_Now w) = Ok tt ∧
  ∃ payload, json_Marshal_Task w task = Ok payload ∧
    st = {| Task_ := task; PublicKey := pub; Signature := ed25519_Sign priv payload |}.
Proof.
  unfold SignTask. intros Hs.
  case_decide as Hp; [discriminate|]. case_decide as Hq; [discriminate|].
  destruct (Validate (Some task) (time_Now w)) as [[]|] eqn:Hv; [|discriminate].
  destruct (json_Marshal_Task w task) as [payload|] eqn:Hm; [|discriminate].
  inversion Hs. eauto 10.
Qed.

Lemma key_pair_lengths `{!PrimitivesCorrect} priv pub :
  key_pair priv pub →
  length priv = ed25519_PrivateKeySize ∧ length pub = ed25519_PublicKeySize.
Proof.
  intros (seed & Hseed & -> & ->).
  pose proof (NewKeyFromSeed_length seed Hseed) as Hl.
  split; [exact Hl|]. rewrite length_drop, Hl. reflexivity.
Qed.

(** C3, as amended. For a task that passes validation at signing time and
    whose creation year lies in 0..9999, and a matching key pair, [SignTask]
    returns a signed task, and [VerifyTask] accepts it at any instant before
    the expiry as long as the task's parameters are unmodified. *)
Theorem sign_then_verify `{!PrimitivesCorrect}
    (w1 w2 : World) (task : Task) (priv pub : list byte) :
  key_pair priv pub →
  Validate (Some task) (time_Now w1) = Ok tt →
  year_in_range (CreatedAt task) = true →
  time.Before (time_Now w2) (expiry task) = true →
  deref w2 (Params task) = deref w1 (Params task) →
  ∃ st, SignTask w1 task priv pub = Ok st ∧ VerifyTask w2 (Some st) = Ok tt.
Proof.
  intros Hkp Hv Hy Hb Hd.
  destruct (key_pair_lengths _ _ Hkp) as [Hlp Hlq].
  eexists. split.
  - unfold SignTask. rewrite !decide_False by (rewrite ?Hlp, ?Hlq; auto).
    rewrite Hv, (json_Marshal_Task_in_range w1 task Hy). reflexivity.
  - unfold VerifyTask. cbn [PublicKey Signature Task_].
    rewrite decide_False by (rewrite Hlq; auto).
    rewrite decide_False by (rewrite Sign_length by exact Hlp; auto).
    rewrite (json_Marshal_Task_in_range w2 task Hy), Hd.
    rewrite Verify_Sign by exact Hkp. cbn [negb].
    rewrite Validate_static_ok by exact (Validate_Ok_static _ _ Hv).
    rewrite Hb. reflexivity.
Qed.

(** C4. A signed task produced by [SignTask] is validated again at the
    instant of verification: at or after the expiry, [VerifyTask] fails
    with the expiry error although the signature is unchanged and the
    signature check passes. *)
Theorem verify_after_expiry `{!PrimitivesCorrect}
    (w1 w2 : World) (task : Task) (priv pub : list byte) (st : SignedTask) :
  SignTask w1 task priv pub = Ok st →
  signature_check w2 st = true →
  time.After (time_Now w2) (expiry task) || time.Equal (time_Now w2) (expiry task) = true →
  VerifyTask w2 (Some st) = Err (ExpiredError task (time_Now w2)).
Proof.
  intros Hs Hver Hlate.
  destruct (SignTask_Ok_inv _ _ _ _ _ Hs) as (Hlp & Hlq & Hv & payload1 & Hm1 & ->).
  unfold signature_check in Hver. cbn [PublicKey Signature Task_] in *.
  unfold VerifyTask. cbn [PublicKey Signature Task_].
  rewrite decide_False by (rewrite Hlq; auto).
  rewrite decide_False by (rewrite Sign_length by exact Hlp; auto).
  destruct (json_Marshal_Task w2 task) as [payload|]; [|discriminate].
  rewrite Hver. cbn [negb].
  rewrite Validate_static_ok by exact (Validate_Ok_static _ _ Hv).
  rewrite Before_not_After_Equal, Hlate. reflexivity.
Qed.

(** With a matching key pair and unmodified parameters the signature check
    of the previous theorem does pass. *)
Lemma signature_check_passes `{!PrimitivesCorrect}
    (w1 w2 : World) (task : Task) (priv pub : list byte) (st : SignedTask) :
  key_pair priv pub →
  SignTask w1 task priv pub = Ok st →
  deref w2 (Params task) = deref w1 (Params task) →
  signature_check w2 st = true.
Proof.
  intros Hkp Hs Hd.
  destruct (SignTask_Ok_inv _ _ _ _ _ Hs) as (_ & _ & _ & payload & Hm & ->).
  unfold signature_check. cbn [PublicKey Signature Task_].
  rewrite (json_Marshal_Task_deref w1 w2 task Hd), Hm.
  apply Verify_Sign, Hkp.
Qed.

(** C5. The size checks come first: a private key that is not 64 bytes or a
    public key that is not 32 bytes makes [SignTask] return a key-size
    error, and a public key that is not 32 bytes or a signature that is not
    64 bytes makes [VerifyTask] return a size error, whatever the task, the
    clock and the other arguments are. *)
Theorem size_checks_first
    (w : World) (task : Task) (priv pub : list byte) (st : SignedTask) :
  (length priv ≠ ed25519_PrivateKeySize ∨ length pub ≠ ed25519_PublicKeySize →
   SignTask w task priv pub =
     Err (if decide (length priv ≠ ed25519_PrivateKeySize)
          then errors_New "invalid private key size"
          else errors_New "invalid public key size")) ∧
  (length (PublicKey st) ≠ ed25519_PublicKeySize ∨
   length (Signature st) ≠ ed25519_SignatureSize →
   VerifyTask w (Some st) =
     Err (if decide (length (PublicKey st) ≠ ed25519_PublicKeySize)
          then errors_New "invalid public key size"
          else errors_New "invalid signature size")).
Proof.
  split.
  - intros Hbad. unfold SignTask.
    destruct (decide (length priv ≠ ed25519_PrivateKeySize)) as [|Hp]; [reflexivity|].
    destruct (decide (length pub ≠ ed25519_PublicKeySize)) as [|Hq]; [reflexivity|].
    tauto.
  - intros Hbad. unfold VerifyTask.
    destruct (decide (length (PublicKey st) ≠ ed25519_PublicKeySize)) as [|Hp]; [reflexivity|].
    destruct (decide (length (Signature st) ≠ ed25519_SignatureSize)) as [|Hq]; [reflexivity|].
    tauto.
Qed.

End attestation.

(** *** The sample primitives meet their contract *)

Lemma bytes_eqb_refl (a : list byte) : Sample.bytes_eqb a a = true.
Proof.
  induction a as [|x a IH]; [reflexivity|]. simpl.
  rewrite IH, andb_true_r. apply Byte.byte_dec_lb. reflexivity.
Qed.

Lemma Sample_checksum_length (msg : list byte) : length (Sample.checksum msg) = 32%nat.
Proof. unfold Sample.checksum. rewrite length_fmap, length_seq. reflexivity. Qed.

Lemma Sample_correct : @PrimitivesCorrect Sample.primitives.
Proof.
  split.
  - intros seed Hs. cbn. unfold Sample.NewKeyFromSeed.
    rewrite length_app, length_reverse, Hs. reflexivity.
  - intros priv msg Hp. cbn. unfold Sample.Sign.
    rewrite length_app, length_drop, Sample_checksum_length, Hp. reflexivity.
  - intros priv pub msg (seed & Hs & -> & ->). cbn. unfold Sample.Verify, Sample.Sign.
    apply bytes_eqb_refl.
Qed.

Lemma Sample_key_pair : key_pair Sample.priv Sample.pub.
Proof. exists Sample.seed. repeat split. Qed.

Lemma sign_then_verify_witness :
  ∃ st, SignTask Sample.world Sample.task Sample.priv Sample.pub = Ok st ∧
        VerifyTask (Sample.later 299) (Some st) = Ok tt.
Proof.
  apply (@sign_then_verify Sample.primitives Sample_correct).
  - exact Sample_key_pair.
  - vm_compute. reflexivity.
  - vm_compute. reflexivity.
  - vm_compute. reflexivity.
  - reflexivity.
Defined.

(** C3 as stated fails: a task created in year 10000 passes validation
    today, but its timestamp has no JSON encoding and [SignTask] returns the
    serialization error. *)
Lemma sign_then_verify_counterexample :
  key_pair Sample.priv Sample.pub ∧
  Validate (Some Sample.far_task) (time_Now Sample.world) = Ok tt ∧
  SignTask Sample.world Sample.far_task Sample.priv Sample.pub =
    Err (fmt_Errorf "marshal task: %w"
           [ArgError (json_MarshalerError "time.Time"
              (errors_New "Time.MarshalJSON: year outside of range [0,9999]"))]).
Proof.
  split; [exact Sample_key_pair|]. split; vm_compute; reflexivity.
Qed.

Lemma verify_after_expiry_witness :
  VerifyTask (Sample.later 601) (Some Sample.signed) =
    Err (ExpiredError Sample.task (time_Now (Sample.later 601))).
Proof.
  apply (@verify_after_expiry Sample.primitives Sample_correct
           Sample.world (Sample.later 601) Sample.task Sample.priv Sample.pub).
  - vm_compute. reflexivity.
  - vm_compute. reflexivity.
  - vm_compute. reflexivity.
Defined.

Lemma size_checks_first_witness :
  SignTask Sample.world Sample.task (take 5 Sample.priv) Sample.pub =
    Err (errors_New "invalid private key size") ∧
  VerifyTask Sample.world
    (Some {| Task_ := with_ID "" Sample.task; PublicKey := Sample.pub; Signature := [] |}) =
    Err (errors_New "invalid signature size").
Proof.
  split.
  - apply (proj1 (size_checks_first Sample.world Sample.task (take 5 Sample.priv) Sample.pub
                    Sample.signed)).
    left. vm_compute. discriminate.
  - apply (proj2 (size_checks_first Sample.world Sample.task Sample.priv Sample.pub
             {| Task_ := with_ID "" Sample.task; PublicKey := Sample.pub; Signature := [] |})).
    right. vm_compute. discriminate.
Defined.

(** ** What signing and verification read from the world *)

Section ambient.
Context `{Primitives}.

Lemma VerifyTask_ext (w w' : World) (st : SignedTask) :
  time_Now w' = time_Now w →
  deref w' (Params (Task_ st)) = deref w (Params (Task_ st)) →
  VerifyTask w' (Some st) = VerifyTask w (Some st).
Proof.
  intros Hc Hd. unfold VerifyTask.
  rewrite (json_Marshal_Task_deref w w' _ Hd), Hc. reflexivity.
Qed.

Lemma SignTask_ext (w w' : World) (task : Task) (priv pub : list byte) :
  time_Now w' = time_Now w →
  deref w' (Params task) = deref w (Params task) →
  SignTask w' task priv pub = SignTask w task priv pub.
Proof.
  intros Hc Hd. unfold SignTask.
  rewrite (json_Marshal_Task_deref w w' _ Hd), Hc. reflexivity.
Qed.

Lemma mutate_agree shared w0 w t μ w' t' :
  agree shared w0 w →
  (is_assignment μ = false → Params t = shared → shared = None) →
  mutate w t μ = Some (w', t') →
  agree shared w0 w'.
Proof.
  intros (Hc & Hd & Ha) Hsp Hm.
  destruct μ; simpl in Hm; simplify_eq; try (split; [|split]; assumption).
  - (* a new map object *)
    split; [exact Hc|]. destruct shared as [l|]; [|split; [exact Hd|exact I]].
    simpl in *. assert (l ≠ fresh (dom (maps w))) as Hne.
    { intros ->. apply elem_of_dom in Ha. exact (is_fresh _ Ha). }
    rewrite lookup_insert_ne by auto. split; [exact Hd|exact Ha].
  - (* a store through the caller's reference *)
    destruct (Params t) as [l'|] eqn:Hp; simplify_eq.
    split; [exact Hc|]. destruct shared as [l|]; [|split; [exact Hd|exact I]].
    assert (l' ≠ l) as Hne by (intros ->; specialize (Hsp eq_refl eq_refl); discriminate).
    simpl in *. rewrite lookup_insert_ne by exact Hne. split; [exact Hd|exact Ha].
  - (* a delete through the caller's reference *)
    destruct (Params t) as [l'|] eqn:Hp; simplify_eq; [|split; [|split]; assumption].
    split; [exact Hc|]. destruct shared as [l|]; [|split; [exact Hd|exact I]].
    assert (l' ≠ l) as Hne by (intros ->; specialize (Hsp eq_refl eq_refl); discriminate).
    simpl in *. rewrite lookup_insert_ne by exact Hne. split; [exact Hd|exact Ha].
Qed.

Lemma mutate_all_agree shared w0 μs : ∀ w t w' t',
  agree shared w0 w →
  spares shared w t μs →
  mutate_all w t μs = Some (w', t') →
  agree shared w0 w'.
Proof.
  induction μs as [|μ μs IH]; intros w t w' t' Hag Hsp Hm; simpl in *.
  - simplify_eq. exact Hag.
  - destruct Hsp as [Hμ Hsp].
    destruct (mutate w t μ) as [[w1 t1]|] eqn:Hm1; [|discriminate].
    eapply IH; [|exact Hsp|exact Hm].
    eapply mutate_agree; eassumption.
Qed.

(** C6, as amended. Whatever the caller does to its own task afterwards,
    the task held by the signed task and the outcome of verifying it stay
    the same, as long as the caller does not update in place the map object
    its [Params] shared with the signed task at signing time: assignments to
    fields, the cancellation token included, rebinding [Params], and
    updates of a map bound to [Params] later are all invisible. *)
Theorem SignedTask_unaffected_by_caller
    (w w' : World) (task task' : Task) (priv pub : list byte) (st : SignedTask)
    (μs : list mutation) :
  SignTask w task priv pub = Ok st →
  allocated w (Params task) →
  mutate_all w task μs = Some (w', task') →
  spares (Params task) w task μs →
  contents w' (Task_ st) = contents w (Task_ st) ∧
  VerifyTask w' (Some st) = VerifyTask w (Some st).
Proof.
  intros Hs Ha Hm Hsp.
  destruct (SignTask_Ok_inv _ _ _ _ _ Hs) as (_ & _ & _ & payload & _ & ->).
  cbn [Task_].
  assert (agree (Params task) w w) as Hag by (split; [|split]; auto).
  destruct (mutate_all_agree _ _ _ _ _ _ _ Hag Hsp Hm) as (Hc & Hd & _).
  split.
  - unfold contents. rewrite Hd. reflexivity.
  - apply VerifyTask_ext; assumption.
Qed.

(** C7, as amended. [SignTask] and [VerifyTask] read the wall clock and the
    task's parameters, [GenerateKeyPair] reads the entropy source: with the
    same arguments, two runs agree whenever these readings agree. *)
Theorem results_determined_by_ambient_readings
    (w1 w2 : World) (task : Task) (priv pub : list byte) (st : SignedTask) :
  (time_Now w1 = time_Now w2 →
   deref w1 (Params task) = deref w2 (Params task) →
   SignTask w1 task priv pub = SignTask w2 task priv pub) ∧
  (time_Now w1 = time_Now w2 →
   deref w1 (Params (Task_ st)) = deref w2 (Params (Task_ st)) →
   VerifyTask w1 (Some st) = VerifyTask w2 (Some st)) ∧
  (rand_Reader w1 = rand_Reader w2 →
   fst (GenerateKeyPair w1) = fst (GenerateKeyPair w2) ∧
   rand_Reader (snd (GenerateKeyPair w1)) = rand_Reader (snd (GenerateKeyPair w2))).
Proof.
  split; [|split].
  - intros Hc Hd. apply SignTask_ext; assumption.
  - intros Hc Hd. apply VerifyTask_ext; assumption.
  - intros Hr. unfold GenerateKeyPair. rewrite Hr.
    destruct (ed25519_GenerateKey (rand_Reader w2)). split; reflexivity.
Qed.

End ambient.

Lemma SignTask_sample :
  SignTask Sample.world Sample.task Sample.priv Sample.pub = Ok Sample.signed.
Proof. vm_compute. reflexivity. Qed.

Lemma SignedTask_unaffected_by_caller_witness :
  match mutate_all Sample.world Sample.task Sample.edits with
  | Some (w', task') =>
      contents w' (Task_ Sample.signed) = contents Sample.world (Task_ Sample.signed) ∧
      VerifyTask w' (Some Sample.signed) = VerifyTask Sample.world (Some Sample.signed)
  | None => False
  end.
Proof.
  destruct (mutate_all _ _ _) as [[w' task']|] eqn:Hm; [|vm_compute in Hm; discriminate].
  apply (@SignedTask_unaffected_by_caller Sample.primitives Sample.world w' Sample.task task'
           Sample.priv Sample.pub Sample.signed Sample.edits SignTask_sample).
  - vm_compute. eauto.
  - exact Hm.
  - simpl. repeat split; discriminate.
Defined.

(** C6 as stated fails: [SignTask] copies the task value, and with it the
    reference to the parameter map, not the map.  A store through the
    caller's [Params] changes the entries the signed task denotes, and the
    signed task no longer verifies. *)
Lemma SignedTask_shares_Params_counterexample :
  SignTask Sample.world Sample.task Sample.priv Sample.pub = Ok Sample.signed ∧
  mutate Sample.world Sample.task (ParamsStore "target" "10.0.0.0/8") =
    Some (Sample.retargeted, Sample.task) ∧
  contents Sample.retargeted (Task_ Sample.signed) ≠ contents Sample.world (Task_ Sample.signed) ∧
  VerifyTask Sample.world (Some Sample.signed) = Ok tt ∧
  VerifyTask Sample.retargeted (Some Sample.signed) =
    Err (errors_New "signature verification failed").
Proof.
  split; [exact SignTask_sample|].
  split; [vm_compute; reflexivity|].
  split; [|split; vm_compute; reflexivity].
  intros Heq. apply (f_equal (λ c, c.2 !! "target")) in Heq.
  vm_compute in Heq. discriminate.
Qed.

Lemma results_determined_by_ambient_readings_witness :
  SignTask (set_maps ∅ (Sample.later 10)) (with_Params None Sample.task) Sample.priv Sample.pub =
  SignTask (Sample.later 10) (with_Params None Sample.task) Sample.priv Sample.pub.
Proof.
  apply (proj1 (@results_determined_by_ambient_readings Sample.primitives
                  (set_maps ∅ (Sample.later 10)) (Sample.later 10)
                  (with_Params None Sample.task) Sample.priv Sample.pub Sample.signed));
    reflexivity.
Defined.

(** C7 as stated fails: [SignTask] and [VerifyTask] call [time.Now] and
    [GenerateKeyPair] reads [rand.Reader].  The same arguments give a signed
    task now and an expiry error five minutes later, and two calls of
    [GenerateKeyPair] give two different key pairs. *)
Lemma ambient_clock_and_entropy_counterexample :
  SignTask Sample.world Sample.task Sample.priv Sample.pub = Ok Sample.signed ∧
  SignTask (Sample.later 300) Sample.task Sample.priv Sample.pub =
    Err (fmt_Errorf "task validation failed: %w"
           [ArgError (ExpiredError Sample.task (time_Now (Sample.later 300)))]) ∧
  VerifyTask Sample.world (Some Sample.signed) = Ok tt ∧
  VerifyTask (Sample.later 300) (Some Sample.signed) =
    Err (ExpiredError Sample.task (time_Now (Sample.later 300))) ∧
  fst (GenerateKeyPair Sample.world) ≠ fst (GenerateKeyPair (snd (GenerateKeyPair Sample.world))).
Proof.
  repeat split; try (vm_compute; reflexivity).
  vm_compute. discriminate.
Qed.

(** ** The external representation round trip *)

Section roundtrip.
Context `{Primitives}.

Lemma Validate_with_Params p t now :
  Validate (Some (with_Params p t)) now = Validate (Some t) now.
Proof. reflexivity. Qed.

Lemma Task_members_with_Params p t created_at m :
  Task_members (with_Params p t) created_at m = Task_members t created_at m.
Proof. reflexivity. Qed.

Lemma decode_entries_strings (l : list (string * string)) : ∀ m0,
  decode_entries ((λ kv : string * string, (kv.1, JString kv.2)) <$> l) m0 =
    Ok (foldr (λ kv, <[kv.1 := kv.2]>) m0 (reverse l)).
Proof.
  induction l as [|[k v] l IH]; intros m0; [reflexivity|].
  rewrite reverse_cons, foldr_app, fmap_cons. cbn -[reverse]. apply IH.
Qed.

Lemma decode_entries_sorted (m : gmap string string) :
  decode_entries ((λ kv : string * string, (kv.1, JString kv.2)) <$> sorted_entries m) ∅ = Ok m.
Proof.
  rewrite decode_entries_strings. f_equal. symmetry.
  apply (list_to_map_flip m). unfold sorted_entries.
  rewrite reverse_Permutation, merge_sort_Permutation. reflexivity.
Qed.

(** Valid UTF-8 is written as it is. *)
Lemma params_json_valid (m : gmap string string) :
  map_Forall (λ k v, utf8_valid k ∧ utf8_valid v) m →
  params_json m = JObject ((λ kv : string * string, (kv.1, JString kv.2)) <$> sorted_entries m).
Proof.
  intros Hm. unfold params_json. f_equal. apply list_fmap_ext.
  intros i [k v] Hi. apply list_elem_of_lookup_2 in Hi.
  unfold sorted_entries in Hi. rewrite merge_sort_Permutation in Hi.
  apply elem_of_map_to_list in Hi. destruct (Hm k v Hi) as [Hk Hv].
  cbn [fst snd]. unfold utf8_valid in Hk, Hv. rewrite Hk, Hv. reflexivity.
Qed.

(** Each member is stored in the field that carries its tag. *)
Lemma decode_member_id w t s :
  decode_Task_member w t "id" (JString s) = Ok (w, with_ID s t).
Proof. reflexivity. Qed.
Lemma decode_member_engagement w t s :
  decode_Task_member w t "engagement" (JString s) = Ok (w, with_Engagement s t).
Proof. reflexivity. Qed.
Lemma decode_member_type w t s :
  decode_Task_member w t "type" (JString s) = Ok (w, with_Type s t).
Proof. reflexivity. Qed.
Lemma decode_member_created_at w t c :
  rfc3339_exact c →
  decode_Task_member w t "created_at" (JString (Time_format c)) = Ok (w, with_CreatedAt c t).
Proof.
  intros Hc. change (decode_Task_member w t "created_at" (JString (Time_format c)))
    with (c' ← decode_Time (JString (Time_format c)) (CreatedAt t); Ok (w, with_CreatedAt c' t)).
  unfold decode_Time. rewrite Hc. reflexivity.
Qed.
Lemma decode_member_ttl_seconds w t n :
  int64_range n →
  decode_Task_member w t "ttl_seconds" (JNumber n) = Ok (w, with_TTLSeconds n t).
Proof.
  intros [Hlo Hhi]. change (decode_Task_member w t "ttl_seconds" (JNumber n))
    with (n' ← decode_int (JNumber n) (TTLSeconds t); Ok (w, with_TTLSeconds n' t)).
  unfold decode_int.
  destruct (Z.leb_spec minInt64 n); [|lia]. destruct (Z.leb_spec n maxInt64); [|lia].
  reflexivity.
Qed.
Lemma decode_member_operator w t s :
  decode_Task_member w t "operator" (JString s) = Ok (w, with_Operator s t).
Proof. reflexivity. Qed.
Lemma decode_member_approved_by w t s :
  decode_Task_member w t "approved_by" (JString s) = Ok (w, with_ApprovedBy s t).
Proof. reflexivity. Qed.
Lemma decode_member_state w t s :
  decode_Task_member w t "state" (JString s) = Ok (w, with_State s t).
Proof. reflexivity. Qed.
Lemma decode_member_cancel_token w t s :
  decode_Task_member w t "cancel_token" (JString s) = Ok (w, with_CancelToken s t).
Proof. reflexivity. Qed.
Lemma decode_member_params w t m :
  Params t = None →
  map_Forall (λ k v, utf8_valid k ∧ utf8_valid v) m →
  decode_Task_member w t "params" (params_json m) =
    Ok (set_maps (<[fresh (dom (maps w)) := m]> (maps w)) w,
        with_Params (Some (fresh (dom (maps w)))) t).
Proof.
  intros Hp Hm. change (decode_Task_member w t "params" (params_json m))
    with ('(w', p) ← decode_Params w (params_json m) (Params t); Ok (w', with_Params p t)).
  rewrite Hp, (params_json_valid m Hm). unfold decode_Params. cbn [deref].
  rewrite decode_entries_sorted. reflexivity.
Qed.

Lemma decode_Task_members_cons w t k v ms :
  decode_Task_members w t ((k, v) :: ms) =
    '(w', t') ← decode_Task_member w t k v; decode_Task_members w' t' ms.
Proof. reflexivity. Qed.

(** Decoding the members written for a task [t] of valid UTF-8 strings,
    whose creation time its text gives back, rebuilds [t], with its
    parameters in a newly allocated map, or [nil] when there are none. *)
Lemma decode_Task_members_encoded
    (w : World) (t : Task) (m : gmap string string) :
  Task_wf t → rfc3339_exact (CreatedAt t) →
  utf8_valid (ID t) → utf8_valid (Engagement t) → utf8_valid (Type_ t) →
  utf8_valid (Operator t) → utf8_valid (ApprovedBy t) → utf8_valid (State t) →
  utf8_valid (CancelToken t) →
  map_Forall (λ k v, utf8_valid k ∧ utf8_valid v) m →
  decode_Task_members w zero_Task (Task_members t (Time_format (CreatedAt t)) m) =
    if decide (size m = 0%nat) then Ok (w, with_Params None t)
    else
      let l := fresh (dom (maps w)) in
      Ok (set_maps (<[l := m]> (maps w)) w, with_Params (Some l) t).
Proof.
  intros [Hwf Httl] Hy. destruct t as [id eng ty created ttl op appr state cancel par].
  unfold utf8_valid.
  cbn [ID Engagement Type_ CreatedAt TTLSeconds Operator ApprovedBy State CancelToken Params].
  intros Hid Heng Hty Hop Happr Hstate Hcancel Hpar.
  cbn in Hwf, Httl. cbn [CreatedAt] in Hy.
  unfold Task_members. cbn [ID Engagement Type_ CreatedAt TTLSeconds Operator ApprovedBy State
                            CancelToken Params app].
  rewrite Hid, Heng, Hty, Hop, Happr, Hstate, Hcancel.
  rewrite decode_Task_members_cons, decode_member_id. cbn [mbind result_bind].
  rewrite decode_Task_members_cons, decode_member_engagement. cbn [mbind result_bind].
  rewrite decode_Task_members_cons, decode_member_type. cbn [mbind result_bind].
  rewrite decode_Task_members_cons, decode_member_created_at by assumption.
  cbn [mbind result_bind].
  rewrite decode_Task_members_cons, decode_member_ttl_seconds by assumption.
  cbn [mbind result_bind].
  rewrite decode_Task_members_cons, decode_member_operator. cbn [mbind result_bind].
  rewrite decode_Task_members_cons, decode_member_approved_by. cbn [mbind result_bind].
  rewrite decode_Task_members_cons, decode_member_state. cbn [mbind result_bind].
  destruct (decide (cancel = "")) as [->|Hc], (decide (size m = 0%nat)) as [Hm|Hm];
    cbn [app];
    rewrite ?decode_Task_members_cons, ?decode_member_cancel_token; cbn [mbind result_bind];
    rewrite ?decode_Task_members_cons, ?decode_member_params by (reflexivity || assumption);
    reflexivity.
Qed.

Lemma Task_to_json_Ok_inv w t j :
  Task_to_json w t = Ok j →
  year_in_range (CreatedAt t) = true ∧
  j = JObject (Task_members t (Time_format (CreatedAt t)) (deref w (Params t))).
Proof.
  unfold Task_to_json, Time_MarshalJSON.
  destruct (year_in_range (CreatedAt t)); [|discriminate].
  intros [= <-]. split; reflexivity.
Qed.

(** C8, as amended. A signed task whose strings, parameter keys and values
    included, are valid UTF-8 and whose creation time is read back
    unchanged from its RFC 3339 text (as an instant held in UTC is), once
    written to its external representation and read back, verifies exactly
    as the original does: the decoded task has the same canonical payload,
    and [VerifyTask] returns the same result at every instant. *)
Theorem roundtrip_verifies_identically `{!Base64Lossless}
    (w : World) (st : SignedTask) (doc : json) :
  Task_wf (Task_ st) →
  Task_utf8 w (Task_ st) →
  rfc3339_exact (CreatedAt (Task_ st)) →
  json_Marshal_SignedTask w st = Ok doc →
  ∃ w' st',
    json_Unmarshal_SignedTask w doc = Ok (w', st') ∧
    json_Marshal_Task w' (Task_ st') = json_Marshal_Task w (Task_ st) ∧
    ∀ now, VerifyTask (set_clock now w') (Some st') = VerifyTask (set_clock now w) (Some st).
Proof.
  intros Hwf (Hid & Heng & Hty & Hop & Happr & Hstate & Hcancel & Hpar) Hexact Hm.
  unfold json_Marshal_SignedTask, SignedTask_to_json in Hm.
  destruct (Task_to_json w (Task_ st)) as [tj|] eqn:Htj; [|discriminate].
  apply Task_to_json_Ok_inv in Htj as [Hy ->]. cbn [mbind result_bind] in Hm.
  injection Hm as <-. destruct st as [t pk sg]. cbn [Task_ PublicKey Signature] in *.
  unfold json_Unmarshal_SignedTask. cbn [decode_SignedTask_members].
  change (decode_SignedTask_member w zero_SignedTask "task" ?v)
    with ('(w', t') ← decode_Task w (Task_ zero_SignedTask) v;
          Ok (w', mkSignedTask t' (PublicKey zero_SignedTask) (Signature zero_SignedTask))).
  cbn [decode_Task Task_ zero_SignedTask PublicKey Signature].
  rewrite decode_Task_members_encoded by assumption.
  set (m := deref w (Params t)).
  assert (∃ w' p, (if decide (size m = 0%nat) then Ok (w, with_Params None t)
                   else let l := fresh (dom (maps w)) in
                        Ok (set_maps (<[l := m]> (maps w)) w, with_Params (Some l) t))
                  = Ok (w', with_Params p t) ∧
                  (∀ now, time_Now (set_clock now w') = time_Now (set_clock now w)) ∧
                  (∀ now, deref (set_clock now w') p = m) ∧ deref w' p = m)
    as (w' & p & -> & Hclock & Hd & Hd').
  { destruct (decide (size m = 0%nat)) as [Hz|Hz].
    - exists w, None. apply map_size_empty_inv in Hz. rewrite Hz. auto.
    - eexists _, _. split; [reflexivity|]. cbn. rewrite lookup_insert_eq. auto. }
  cbn [mbind result_bind].
  change (decode_SignedTask_member w' ?s "public_key" ?v)
    with (b ← decode_bytes v; Ok (w', mkSignedTask (Task_ s) b (Signature s))).
  unfold bytes_json, decode_bytes. rewrite base64_decode_encode.
  cbn [mbind result_bind Task_ Signature PublicKey].
  change (decode_SignedTask_member w' ?s "signature" ?v)
    with (b ← decode_bytes v; Ok (w', mkSignedTask (Task_ s) (PublicKey s) b)).
  unfold decode_bytes. rewrite base64_decode_encode.
  cbn [mbind result_bind Task_ Signature PublicKey].
  eexists _, _. split; [reflexivity|]. cbn [Task_].
  assert (∀ w1 w2, deref w1 p = m → deref w2 (Params t) = m →
                   json_Marshal_Task w1 (with_Params p t) = json_Marshal_Task w2 t) as Hpay.
  { intros w1 w2 H1 H2. unfold json_Marshal_Task, Task_to_json.
    cbn [CreatedAt with_Params Params]. rewrite H1, H2.
    destruct (Time_MarshalJSON (CreatedAt t)); reflexivity. }
  split; [apply Hpay; [exact Hd'|reflexivity]|].
  intros now. unfold VerifyTask. cbn [PublicKey Signature Task_].
  rewrite (Hpay (set_clock now w') (set_clock now w)) by (auto; reflexivity).
  rewrite Hclock, Validate_with_Params. reflexivity.
Qed.

End roundtrip.

Lemma Sample_parse_format (t : time.Time) : time.wf t → Sample.parse (Sample.format t) = Some t.
Proof.
  intros [_ Hn]. unfold Sample.parse, Sample.format.
  rewrite NilZero.isi.
  - rewrite DecimalZ.of_to. destruct t as [s n]. unfold time.nanos. cbn [time.sec time.nsec] in *.
    f_equal. f_equal.
    + symmetry. apply (Z.div_unique_pos _ _ _ n); lia.
    + symmetry. apply (Z.mod_unique_pos _ _ s n); lia.
  - destruct (time.nanos t); cbn; try discriminate.
    intros [= Hp]. exact (Unsigned.to_uint_nonnil _ Hp).
  - destruct (time.nanos t); cbn; try discriminate.
    intros [= Hp]. exact (Unsigned.to_uint_nonnil _ Hp).
Qed.

Lemma Sample_base64 : @Base64Lossless Sample.primitives.
Proof.
  split.
  - intros b. change (Some (String.list_byte_of_string (String.string_of_list_byte b)) = Some b).
    rewrite String.list_byte_of_string_of_list_byte. reflexivity.
Qed.

Lemma Sample_task_wf : Task_wf Sample.task.
Proof. unfold Task_wf, time.wf, int64_range, minInt64, maxInt64. cbn. lia. Qed.

Lemma Sample_task_exact : rfc3339_exact (CreatedAt Sample.task).
Proof. apply Sample_parse_format, Sample_task_wf. Qed.

Lemma Sample_task_utf8 : Task_utf8 Sample.world Sample.task.
Proof.
  unfold Task_utf8, utf8_valid. do 7 (split; [vm_compute; reflexivity|]).
  change (deref Sample.world (Params Sample.task)) with (default ∅ (maps Sample.world !! 1%positive)).
  unfold Sample.world. cbn [maps]. rewrite lookup_singleton_eq. cbn [default].
  apply map_Forall_singleton. split; vm_compute; reflexivity.
Qed.

Lemma roundtrip_verifies_identically_witness :
  match json_Marshal_SignedTask Sample.world Sample.signed with
  | Ok doc =>
      ∃ w' st',
        json_Unmarshal_SignedTask Sample.world doc = Ok (w', st') ∧
        json_Marshal_Task w' (Task_ st') = json_Marshal_Task Sample.world (Task_ Sample.signed) ∧
        ∀ now, VerifyTask (set_clock now w') (Some st') =
               VerifyTask (set_clock now Sample.world) (Some Sample.signed)
  | Err _ => False
  end.
Proof.
  destruct (json_Marshal_SignedTask Sample.world Sample.signed) as [doc|] eqn:Hm;
    [|vm_compute in Hm; discriminate].
  exact (@roundtrip_verifies_identically Sample.primitives Sample_base64
           Sample.world Sample.signed doc Sample_task_wf Sample_task_utf8 Sample_task_exact Hm).
Defined.

(** C8 as stated fails: a task with the parameter keys FE and FF is signed
    and verifies, its document names both parameters U+FFFD, the decoded
    task holds the later one only, its payload is not the one that was
    signed, and [VerifyTask] rejects the decoded signed task at the same
    instant. *)
Lemma roundtrip_verifies_identically_counterexample :
  SignTask Sample.clash_world Sample.task Sample.priv Sample.pub = Ok Sample.clash_signed ∧
  VerifyTask Sample.clash_world (Some Sample.clash_signed) = Ok tt ∧
  match json_Marshal_SignedTask Sample.clash_world Sample.clash_signed with
  | Ok doc =>
      match json_Unmarshal_SignedTask Sample.clash_world doc with
      | Ok (w', st') =>
          deref w' (Params (Task_ st')) = {[ replacement_char := "b" ]} ∧
          json_Marshal_Task w' (Task_ st') ≠ json_Marshal_Task Sample.clash_world Sample.task ∧
          VerifyTask w' (Some st') = Err (errors_New "signature verification failed")
      | Err _ => False
      end
  | Err _ => False
  end.
Proof.
  split; [vm_compute; reflexivity|]. split; [vm_compute; reflexivity|].
  vm_compute. split; [reflexivity|]. split; [|reflexivity].
  intros Heq. discriminate Heq.
Qed.

(** ** The audit chain *)





Section chain.
Import AuditChain.
Context `{Hashing}.











End chain.




(** * Further properties of the package *)

(** ** Order and monotonicity of validation *)

Ltac use_earlier Hh :=
  try (pose proof (Hh CondID ltac:(simpl; lia)));
  try (pose proof (Hh CondEngagement ltac:(simpl; lia)));
  try (pose proof (Hh CondOperator ltac:(simpl; lia)));
  try (pose proof (Hh CondApprover ltac:(simpl; lia)));
  try (pose proof (Hh CondType ltac:(simpl; lia)));
  try (pose proof (Hh CondTTL ltac:(simpl; lia)));
  try (pose proof (Hh CondState ltac:(simpl; lia)));
  cbn [holds] in *.

(** X1. [Validate] reports the first check that fails, in the order of the
    source, whatever the later fields hold. *)
Theorem Validate_first_violation (t : Task) (now : time.Time) (c : Condition) :
  ¬ holds c t now →
  (∀ c', (check_position c' < check_position c)%nat → holds c' t now) →
  Validate (Some t) now = Err (violation_error c t now).
Proof.
  intros Hc Hh.
  destruct c; cbn [violation_error]; cbn [holds] in Hc; try (apply dec_stable in Hc);
    use_earlier Hh.
  - unfold Validate. rewrite decide_True by assumption. reflexivity.
  - unfold Validate. rewrite decide_False, decide_True by assumption. reflexivity.
  - unfold Validate. rewrite !decide_False, decide_True by assumption. reflexivity.
  - unfold Validate. rewrite !decide_False, decide_True by assumption. reflexivity.
  - unfold Validate. rewrite !decide_False by assumption.
    rewrite bool_decide_eq_false_2 by assumption. reflexivity.
  - unfold Validate. rewrite !decide_False by assumption.
    rewrite bool_decide_eq_true_2 by assumption. cbn [negb]. ttl_cases t.
  - unfold Validate. rewrite !decide_False by assumption.
    rewrite bool_decide_eq_true_2 by assumption. cbn [negb]. ttl_cases t.
    rewrite bool_decide_eq_false_2 by assumption. reflexivity.
  - rewrite Validate_static_ok.
    + destruct (time.Before now (expiry t)); [congruence|reflexivity].
    + intros c' Hc' now'. destruct c'; try congruence; cbn [holds]; assumption.
Qed.

Lemma Validate_first_violation_witness :
  Validate (Some (with_TTLSeconds 0 (with_State "approved" (with_Operator "" Sample.task))))
           (time_Now (Sample.later 9000)) =
    Err (errors_New "operator is required").
Proof.
  apply (Validate_first_violation _ _ CondOperator).
  - simpl. tauto.
  - intros c' Hc'. destruct c'; simpl in Hc'; try lia; simpl; discriminate.
Defined.

(** X2. [Validate] returns nil exactly when all eight conditions hold. *)
Theorem Validate_Ok_iff (t : Task) (now : time.Time) :
  Validate (Some t) now = Ok tt ↔ ∀ c, holds c t now.
Proof.
  split; [apply Validate_Ok_inv|].
  intros Hall.
  rewrite Validate_static_ok
    by (intros c Hc now'; specialize (Hall c); destruct c; try exact Hall; congruence).
  specialize (Hall CondExpiry). cbn [holds] in Hall. rewrite Hall. reflexivity.
Qed.

Lemma Before_not_After_trans a b e :
  time.After a b = false → time.Before b e = true → time.Before a e = true.
Proof.
  unfold time.After, time.Before.
  rewrite orb_false_iff, andb_false_iff, !orb_true_iff, !andb_true_iff,
          !Z.ltb_lt, !Z.ltb_ge, !Z.eqb_eq, Z.eqb_neq.
  lia.
Qed.

Lemma Validate_Expired_inv t now :
  Validate (Some t) now = Err (ExpiredError t now) →
  static_ok t ∧ time.Before now (expiry t) = false.
Proof.
  unfold Validate, ExpiredError. cbn [violation_error]. intros H.
  repeat (case_decide; [discriminate|]).
  destruct (bool_decide (Type_ t ∈ allowedTaskTypes)) eqn:E5; [|discriminate].
  cbn [negb] in H. unfold minTTLSeconds, maxTTLSeconds in H.
  destruct (Z.ltb_spec (TTLSeconds t) 1); [discriminate|].
  destruct (Z.ltb_spec 3600 (TTLSeconds t)); [discriminate|]. cbn [orb] in H.
  destruct (bool_decide (State t ∈ validTaskStates)) eqn:E7; [|discriminate].
  cbn [negb] in H. apply bool_decide_eq_true_1 in E5, E7.
  destruct (time.After now (expiry t) || time.Equal now (expiry t)) eqn:E8; [|discriminate].
  split.
  - intros c Hc now'. destruct c; cbn [holds]; try assumption; try lia. congruence.
  - rewrite Before_not_After_Equal, E8. reflexivity.
Qed.

(** X3. Validity only ends: a task that validates at some instant validates
    at every instant that is not later (there is no not-before check, so a
    task dated in the future validates), and a task that is expired stays
    expired. *)
Theorem Validate_monotone_in_time (t : Task) (now now' : time.Time) :
  time.After now' now = false →
  (Validate (Some t) now = Ok tt → Validate (Some t) now' = Ok tt) ∧
  (Validate (Some t) now' = Err (ExpiredError t now') →
   Validate (Some t) now = Err (ExpiredError t now)).
Proof.
  intros Hle. split.
  - intros HOk. pose proof (Validate_Ok_inv _ _ HOk CondExpiry) as Hb. cbn [holds] in Hb.
    rewrite Validate_static_ok by exact (Validate_Ok_static _ _ HOk).
    rewrite (Before_not_After_trans _ _ _ Hle Hb). reflexivity.
  - intros HE. apply Validate_Expired_inv in HE as [Hs Hb].
    rewrite Validate_static_ok by exact Hs.
    destruct (time.Before now (expiry t)) eqn:Hb'; [|reflexivity].
    rewrite (Before_not_After_trans _ _ _ Hle Hb') in Hb. discriminate.
Qed.

Lemma Validate_monotone_in_time_witness :
  Validate (Some Sample.task) (time.mkTime 0 0) = Ok tt ∧
  Validate (Some Sample.task) (time_Now (Sample.later 4000)) =
    Err (ExpiredError Sample.task (time_Now (Sample.later 4000))).
Proof.
  split.
  - apply (proj1 (Validate_monotone_in_time Sample.task Sample.now (time.mkTime 0 0) eq_refl)).
    vm_compute. reflexivity.
  - apply (proj2 (Validate_monotone_in_time Sample.task (time_Now (Sample.later 4000))
                    (time_Now (Sample.later 300)) eq_refl)).
    vm_compute. reflexivity.
Defined.

(** X4. On the path that reaches the expiry test the TTL has passed the
    range check, so the multiplication by [time.Second] does not wrap and
    the expiry is exactly TTL seconds after [CreatedAt]; a task that
    validates is therefore less than one hour past its creation. *)
Theorem valid_task_is_younger_than_an_hour (t : Task) (now : time.Time) :
  time.wf now → time.wf (CreatedAt t) →
  time.sec (CreatedAt t) + 3600 ≤ maxInt64 →
  Validate (Some t) now = Ok tt →
  wrap64 (TTLSeconds t * time.Second) = TTLSeconds t * 1000000000 ∧
  time.nanos (expiry t) = time.nanos (CreatedAt t) + TTLSeconds t * 1000000000 ∧
  time.nanos now < time.nanos (CreatedAt t) + 3600 * 1000000000.
Proof.
  intros Hn Hc Hmax HOk.
  pose proof (Validate_Ok_inv _ _ HOk CondTTL) as Httl.
  pose proof (Validate_Ok_inv _ _ HOk CondExpiry) as Hb. cbn [holds] in Httl, Hb.
  destruct (expiry_nanos t Hc Httl ltac:(lia)) as [Hwf Heq].
  apply (Before_nanos now (expiry t) Hn Hwf) in Hb.
  split; [|split; [exact Heq | lia]].
  apply wrap64_id. unfold int64_range, minInt64, maxInt64, time.Second. lia.
Qed.

Lemma Sample_now_wf : time.wf Sample.now.
Proof. unfold time.wf, int64_range, minInt64, maxInt64. cbn. lia. Qed.

Lemma valid_task_is_younger_than_an_hour_witness :
  time.nanos Sample.now < time.nanos (CreatedAt Sample.task) + 3600 * 1000000000.
Proof.
  apply (valid_task_is_younger_than_an_hour Sample.task Sample.now).
  - exact Sample_now_wf.
  - apply Sample_task_wf.
  - unfold maxInt64. cbn. lia.
  - vm_compute. reflexivity.
Defined.

(** X5. [Validate] does not read the cancellation token or the parameters,
    and of the state only whether it is one of the five lifecycle states:
    a cancelled, completed or failed task validates like a pending one. *)
Theorem Validate_ignores_token_params_and_lifecycle
    (t : Task) (now : time.Time) (token : string) (p : option loc) (s : TaskState) :
  State t ∈ validTaskStates → s ∈ validTaskStates →
  Validate (Some (with_State s (with_CancelToken token (with_Params p t)))) now =
  Validate (Some t) now.
Proof.
  intros Ht Hs. unfold Validate.
  cbn [ID Engagement Operator ApprovedBy Type_ TTLSeconds State with_State with_CancelToken
       with_Params].
  rewrite !(bool_decide_eq_true_2 (_ ∈ validTaskStates)) by assumption.
  reflexivity.
Qed.

Lemma Validate_ignores_token_params_and_lifecycle_witness :
  Validate (Some (with_State StateCancelled (with_CancelToken "stop" (with_Params None Sample.task))))
           Sample.now = Ok tt.
Proof.
  rewrite (Validate_ignores_token_params_and_lifecycle Sample.task Sample.now "stop" None
             StateCancelled).
  - vm_compute. reflexivity.
  - cbn. unfold validTaskStates. set_solver.
  - unfold validTaskStates. set_solver.
Defined.

(** ** Signing, verification and key generation *)

Section attestation_more.
Context `{Primitives}.

Lemma Task_to_json_year w t :
  year_in_range (CreatedAt t) = false →
  json_Marshal_Task w t =
    Err (json_MarshalerError "time.Time"
           (errors_New "Time.MarshalJSON: year outside of range [0,9999]")).
Proof.
  unfold json_Marshal_Task, Task_to_json, Time_MarshalJSON. intros ->. reflexivity.
Qed.

(** X6. [SignTask] returns a signed task exactly when both keys have the
    right length, the task validates at the current instant and its
    creation year can be written; the signed task then holds the task and
    the public key as given and a 64-byte signature over the payload. *)
Theorem SignTask_succeeds_iff `{!PrimitivesCorrect}
    (w : World) (task : Task) (priv pub : list byte) :
  ((∃ st, SignTask w task priv pub = Ok st) ↔
   length priv = ed25519_PrivateKeySize ∧ length pub = ed25519_PublicKeySize ∧
   Validate (Some task) (time_Now w) = Ok tt ∧ year_in_range (CreatedAt task) = true) ∧
  (∀ st, SignTask w task priv pub = Ok st →
     Task_ st = task ∧ PublicKey st = pub ∧
     length (Signature st) = ed25519_SignatureSize ∧
     ∃ payload, json_Marshal_Task w task = Ok payload ∧
                Signature st = ed25519_Sign priv payload).
Proof.
  split; [split|].
  - intros [st Hs].
    destruct (SignTask_Ok_inv _ _ _ _ _ Hs) as (Hp & Hq & Hv & payload & Hm & _).
    repeat split; try assumption.
    destruct (year_in_range (CreatedAt task)) eqn:Hy; [reflexivity|].
    rewrite (Task_to_json_year w task Hy) in Hm. discriminate.
  - intros (Hp & Hq & Hv & Hy). eexists. unfold SignTask.
    rewrite !decide_False by (rewrite ?Hp, ?Hq; auto).
    rewrite Hv, (json_Marshal_Task_in_range w task Hy). reflexivity.
  - intros st Hs.
    destruct (SignTask_Ok_inv _ _ _ _ _ Hs) as (Hp & Hq & Hv & payload & Hm & ->).
    cbn [Task_ PublicKey Signature]. repeat split.
    + apply Sign_length, Hp.
    + exists payload. split; [exact Hm | reflexivity].
Qed.

(** X7. [SignTask] never checks that the public key belongs to the private
    key: with any other 32-byte key in its place it returns the same task
    and signature under that key. *)
Theorem SignTask_accepts_any_public_key
    (w : World) (task : Task) (priv pub pub' : list byte) (st : SignedTask) :
  SignTask w task priv pub = Ok st →
  length pub' = ed25519_PublicKeySize →
  SignTask w task priv pub' =
    Ok {| Task_ := Task_ st; PublicKey := pub'; Signature := Signature st |}.
Proof.
  intros Hs Hq'.
  destruct (SignTask_Ok_inv _ _ _ _ _ Hs) as (Hp & Hq & Hv & payload & Hm & ->).
  unfold SignTask. rewrite !decide_False by (rewrite ?Hp, ?Hq'; auto).
  rewrite Hv, Hm. reflexivity.
Qed.

(** X8. [VerifyTask] accepts a signed task exactly when the key has 32
    bytes, the signature 64, the signature check passes and the task
    validates now; and a failing signature check is reported before any
    problem of the task itself, expiry included. *)
Theorem VerifyTask_accepts_iff (w : World) (st : SignedTask) :
  (VerifyTask w (Some st) = Ok tt ↔
   length (PublicKey st) = ed25519_PublicKeySize ∧
   length (Signature st) = ed25519_SignatureSize ∧
   signature_check w st = true ∧
   Validate (Some (Task_ st)) (time_Now w) = Ok tt) ∧
  (length (PublicKey st) = ed25519_PublicKeySize →
   length (Signature st) = ed25519_SignatureSize →
   year_in_range (CreatedAt (Task_ st)) = true →
   signature_check w st = false →
   VerifyTask w (Some st) = Err (errors_New "signature verification failed")).
Proof.
  unfold VerifyTask, signature_check. split; [split|].
  - intros Hv.
    case_decide as Hp; [discriminate|]. case_decide as Hq; [discriminate|].
    destruct (json_Marshal_Task w (Task_ st)) as [payload|]; [|discriminate].
    destruct (ed25519_Verify (PublicKey st) payload (Signature st)); [|discriminate].
    cbn [negb] in Hv. destruct (Validate (Some (Task_ st)) (time_Now w)) as [[]|]; [|discriminate].
    repeat split; assumption.
  - intros (Hp & Hq & Hsig & Hv).
    rewrite !decide_False by (rewrite ?Hp, ?Hq; auto).
    destruct (json_Marshal_Task w (Task_ st)) as [payload|]; [|discriminate].
    rewrite Hsig. cbn [negb]. exact Hv.
  - intros Hp Hq Hy Hsig.
    rewrite !decide_False by (rewrite ?Hp, ?Hq; auto).
    rewrite (json_Marshal_Task_in_range w _ Hy) in *. rewrite Hsig. reflexivity.
Qed.

(** X9. A signed task from [SignTask] with a matching key pair verifies
    exactly until its expiry: at any instant before it, the time of signing
    or earlier included, [VerifyTask] returns nil, and from the expiry on
    the expiry error. *)
Theorem VerifyTask_until_expiry `{!PrimitivesCorrect}
    (w1 w2 : World) (task : Task) (priv pub : list byte) (st : SignedTask) :
  key_pair priv pub →
  SignTask w1 task priv pub = Ok st →
  deref w2 (Params task) = deref w1 (Params task) →
  VerifyTask w2 (Some st) =
    if time.Before (time_Now w2) (expiry task) then Ok tt
    else Err (ExpiredError task (time_Now w2)).
Proof.
  intros Hkp Hs Hd.
  destruct (SignTask_Ok_inv _ _ _ _ _ Hs) as (Hp & Hq & Hv & payload & Hm & ->).
  unfold VerifyTask. cbn [Task_ PublicKey Signature].
  rewrite decide_False by (rewrite Hq; auto).
  rewrite decide_False by (rewrite Sign_length by exact Hp; auto).
  rewrite (json_Marshal_Task_deref w1 w2 task Hd), Hm.
  rewrite Verify_Sign by exact Hkp. cbn [negb].
  apply Validate_static_ok. exact (Validate_Ok_static _ _ Hv).
Qed.


(** X11. The flow of the README and of the tests: a key pair from
    [GenerateKeyPair] passes the size checks of [SignTask], and whatever
    [SignTask] then returns is accepted by [VerifyTask] at that instant. *)
Theorem generate_sign_verify `{!PrimitivesCorrect}
    (w w' : World) (task : Task) (pub priv : list byte) :
  GenerateKeyPair w = (Ok (pub, priv), w') →
  Validate (Some task) (time_Now w') = Ok tt →
  year_in_range (CreatedAt task) = true →
  ∃ st, SignTask w' task priv pub = Ok st ∧ VerifyTask w' (Some st) = Ok tt.
Proof.
  intros Hg Hv Hy.
  assert (key_pair priv pub) as Hkp.
  { unfold GenerateKeyPair, ed25519_GenerateKey in Hg.
    destruct (decide (length (rand_Reader w) = 0%nat)); [discriminate|].
    destruct (decide (length (rand_Reader w) < ed25519_SeedSize)%nat) as [|Hlen];
      [discriminate|].
    injection Hg as <- <- _.
    exists (take ed25519_SeedSize (rand_Reader w)). split; [|split; reflexivity].
    rewrite length_take. lia. }
  destruct (key_pair_lengths _ _ Hkp) as [Hp Hq].
  eexists. split.
  - unfold SignTask. rewrite !decide_False by (rewrite ?Hp, ?Hq; auto).
    rewrite Hv, (json_Marshal_Task_in_range w' task Hy). reflexivity.
  - unfold VerifyTask. cbn [Task_ PublicKey Signature].
    rewrite decide_False by (rewrite Hq; auto).
    rewrite decide_False by (rewrite Sign_length by exact Hp; auto).
    rewrite (json_Marshal_Task_in_range w' task Hy).
    rewrite Verify_Sign by exact Hkp. cbn [negb]. exact Hv.
Qed.

End attestation_more.

Lemma SignTask_succeeds_iff_witness :
  ∃ st, SignTask Sample.world Sample.task Sample.priv Sample.pub = Ok st.
Proof.
  apply (proj1 (@SignTask_succeeds_iff Sample.primitives Sample_correct
                  Sample.world Sample.task Sample.priv Sample.pub)).
  repeat split; vm_compute; reflexivity.
Defined.

Lemma SignTask_accepts_any_public_key_witness :
  SignTask Sample.world Sample.task Sample.priv (replicate 32 x00) =
    Ok {| Task_ := Sample.task; PublicKey := replicate 32 x00;
          Signature := Signature Sample.signed |}.
Proof.
  apply (@SignTask_accepts_any_public_key Sample.primitives Sample.world Sample.task
           Sample.priv Sample.pub (replicate 32 x00) Sample.signed).
  - vm_compute. reflexivity.
  - reflexivity.
Defined.

Lemma VerifyTask_accepts_iff_witness :
  VerifyTask (Sample.later 4000)
    (Some {| Task_ := with_ID "tampered-id" Sample.task; PublicKey := Sample.pub;
             Signature := Signature Sample.signed |}) =
    Err (errors_New "signature verification failed").
Proof.
  apply (proj2 (@VerifyTask_accepts_iff Sample.primitives (Sample.later 4000) _));
    vm_compute; reflexivity.
Defined.

Lemma VerifyTask_until_expiry_witness :
  VerifyTask (set_clock (time.mkTime 0 0) Sample.world) (Some Sample.signed) = Ok tt.
Proof.
  rewrite (@VerifyTask_until_expiry Sample.primitives Sample_correct Sample.world
             (set_clock (time.mkTime 0 0) Sample.world) Sample.task Sample.priv Sample.pub
             Sample.signed Sample_key_pair).
  - vm_compute. reflexivity.
  - vm_compute. reflexivity.
  - reflexivity.
Defined.


Lemma generate_sign_verify_witness :
  match GenerateKeyPair Sample.world with
  | (Ok (pub, priv), w') =>
      ∃ st, SignTask w' Sample.task priv pub = Ok st ∧ VerifyTask w' (Some st) = Ok tt
  | _ => False
  end.
Proof.
  destruct (GenerateKeyPair Sample.world) as [[[pub priv]|e] w'] eqn:Hg;
    [|vm_compute in Hg; discriminate].
  apply (@generate_sign_verify Sample.primitives Sample_correct Sample.world w' Sample.task
           pub priv Hg).
  - vm_compute in Hg. injection Hg as <- <- <-. vm_compute. reflexivity.
  - vm_compute. reflexivity.
Defined.

(** ** The canonical document and the external representation *)

Lemma Ok_inj {A : Type} (a b : A) : Ok a = Ok b → a = b.
Proof. intros Heq. injection Heq as ->. reflexivity. Qed.

Section documents.
Context `{Primitives} `{!Base64Lossless}.

(** X12. Among tasks whose strings are valid UTF-8 and whose creation time
    is read back unchanged from its RFC 3339 text, the JSON document of a
    task determines the task: two such tasks with the same document agree
    on every field and on every parameter entry. *)
Theorem Task_document_determines_task
    (w1 w2 : World) (t1 t2 : Task) (doc : json) :
  Task_wf t1 → Task_wf t2 →
  Task_utf8 w1 t1 → Task_utf8 w2 t2 →
  rfc3339_exact (CreatedAt t1) → rfc3339_exact (CreatedAt t2) →
  Task_to_json w1 t1 = Ok doc → Task_to_json w2 t2 = Ok doc →
  with_Params None t1 = with_Params None t2 ∧
  deref w1 (Params t1) = deref w2 (Params t2).
Proof.
  intros Hwf1 Hwf2 (Ha1 & Hb1 & Hc1 & Hd1 & He1 & Hf1 & Hg1 & Hh1)
         (Ha2 & Hb2 & Hc2 & Hd2 & He2 & Hf2 & Hg2 & Hh2) Hx1 Hx2 H1 H2.
  apply Task_to_json_Ok_inv in H1 as [_ ->].
  apply Task_to_json_Ok_inv in H2 as [_ Hdoc].
  assert (Task_members t1 (Time_format (CreatedAt t1)) (deref w1 (Params t1)) =
          Task_members t2 (Time_format (CreatedAt t2)) (deref w2 (Params t2))) as Heq
    by congruence.
  clear Hdoc.
  pose proof (decode_Task_members_encoded w1 t1 (deref w1 (Params t1)) Hwf1 Hx1
                Ha1 Hb1 Hc1 Hd1 He1 Hf1 Hg1 Hh1) as D1.
  pose proof (decode_Task_members_encoded w1 t2 (deref w2 (Params t2)) Hwf2 Hx2
                Ha2 Hb2 Hc2 Hd2 He2 Hf2 Hg2 Hh2) as D2.
  rewrite Heq, D2 in D1. clear D2 Heq.
  destruct (decide (size (deref w1 (Params t1)) = 0%nat)) as [Hz1|Hz1],
           (decide (size (deref w2 (Params t2)) = 0%nat)) as [Hz2|Hz2];
    cbn zeta in D1; apply Ok_inj, pair_equal_spec in D1 as [Hw Ht].
  - apply map_size_empty_inv in Hz1, Hz2. rewrite Hz1, Hz2. split; [|reflexivity].
    symmetry. exact Ht.
  - apply (f_equal Params) in Ht. discriminate.
  - apply (f_equal Params) in Ht. discriminate.
  - split.
    + apply (f_equal (with_Params None)) in Ht. symmetry. exact Ht.
    + apply (f_equal (λ w : World, maps w !! fresh (dom (maps w1)))) in Hw.
      cbn [maps set_maps] in Hw. rewrite !lookup_insert_eq in Hw. congruence.
Qed.

(** The value [json.Unmarshal] builds from the document of a signed task
    whose strings are valid UTF-8 and whose creation time its text gives
    back. *)
Lemma json_Unmarshal_encoded (w : World) (t : Task) (pk sg : list byte) :
  Task_wf t → rfc3339_exact (CreatedAt t) → Task_utf8 w t →
  json_Unmarshal_SignedTask w
    (JObject [ ("task", JObject (Task_members t (Time_format (CreatedAt t)) (deref w (Params t))));
               ("public_key", bytes_json pk); ("signature", bytes_json sg) ]) =
    if decide (size (deref w (Params t)) = 0%nat) then
      Ok (w, mkSignedTask (with_Params None t) pk sg)
    else
      Ok (set_maps (<[fresh (dom (maps w)) := deref w (Params t)]> (maps w)) w,
          mkSignedTask (with_Params (Some (fresh (dom (maps w)))) t) pk sg).
Proof.
  intros Hwf Hy (Hid & Heng & Hty & Hop & Happr & Hstate & Hcancel & Hpar).
  unfold json_Unmarshal_SignedTask. cbn [decode_SignedTask_members].
  change (decode_SignedTask_member w zero_SignedTask "task" ?v)
    with ('(w', t') ← decode_Task w (Task_ zero_SignedTask) v;
          Ok (w', mkSignedTask t' (PublicKey zero_SignedTask) (Signature zero_SignedTask))).
  cbn [decode_Task Task_ zero_SignedTask PublicKey Signature].
  rewrite decode_Task_members_encoded by assumption.
  destruct (decide (size (deref w (Params t)) = 0%nat)); cbn [mbind result_bind];
    (match goal with
     | |- context [decode_SignedTask_member ?w' ?s "public_key" ?v] =>
         change (decode_SignedTask_member w' s "public_key" v)
           with (b ← decode_bytes v; Ok (w', mkSignedTask (Task_ s) b (Signature s)))
     end);
    unfold bytes_json, decode_bytes; rewrite base64_decode_encode;
    cbn [mbind result_bind Task_ Signature PublicKey];
    (match goal with
     | |- context [decode_SignedTask_member ?w' ?s "signature" ?v] =>
         change (decode_SignedTask_member w' s "signature" v)
           with (b ← decode_bytes v; Ok (w', mkSignedTask (Task_ s) (PublicKey s) b))
     end);
    unfold decode_bytes; rewrite base64_decode_encode; reflexivity.
Qed.

(** X13. For a signed task whose strings, parameter keys and values
    included, are valid UTF-8 and whose creation time is read back
    unchanged from its RFC 3339 text (as an instant held in UTC is),
    reading back the external representation restores every field, the key
    and the signature.  Only the parameter reference changes: the entries
    come back in a newly allocated map, or as a nil map when there are none;
    the map objects that existed are not touched, and writing the decoded
    value out again gives the same document. *)
Theorem roundtrip_restores_fields (w : World) (st : SignedTask) (doc : json) :
  Task_wf (Task_ st) →
  Task_utf8 w (Task_ st) →
  rfc3339_exact (CreatedAt (Task_ st)) →
  json_Marshal_SignedTask w st = Ok doc →
  ∃ w' st',
    json_Unmarshal_SignedTask w doc = Ok (w', st') ∧
    with_Params None (Task_ st') = with_Params None (Task_ st) ∧
    PublicKey st' = PublicKey st ∧ Signature st' = Signature st ∧
    deref w' (Params (Task_ st')) = deref w (Params (Task_ st)) ∧
    (deref w (Params (Task_ st)) = ∅ → Params (Task_ st') = None ∧ w' = w) ∧
    (deref w (Params (Task_ st)) ≠ ∅ →
       ∃ l, Params (Task_ st') = Some l ∧ maps w !! l = None) ∧
    (∀ l, is_Some (maps w !! l) → maps w' !! l = maps w !! l) ∧
    json_Marshal_SignedTask w' st' = Ok doc.
Proof.
  intros Hwf Hutf Hexact Hm. unfold json_Marshal_SignedTask, SignedTask_to_json in *.
  destruct (Task_to_json w (Task_ st)) as [tj|] eqn:Htj; [|discriminate].
  apply Task_to_json_Ok_inv in Htj as [Hy ->]. cbn [mbind result_bind] in Hm.
  injection Hm as <-. destruct st as [t pk sg]. cbn [Task_ PublicKey Signature] in *.
  rewrite json_Unmarshal_encoded by assumption.
  set (m := deref w (Params t)).
  assert (∀ w1 p, deref w1 p = m →
            Task_to_json w1 (with_Params p t) =
              Ok (JObject (Task_members t (Time_format (CreatedAt t)) m))) as Hdoc.
  { intros w1 p Hd. unfold Task_to_json, Time_MarshalJSON.
    cbn [CreatedAt with_Params Params]. rewrite Hy, Hd. reflexivity. }
  destruct (decide (size m = 0%nat)) as [Hz|Hz].
  - apply map_size_empty_inv in Hz.
    eexists _, _. split; [reflexivity|]. cbn [Task_ PublicKey Signature with_Params Params deref].
    split; [reflexivity|]. split; [reflexivity|]. split; [reflexivity|].
    split; [symmetry; exact Hz|].
    split; [intros _; split; reflexivity|].
    split; [intros Hne; contradiction|].
    split; [intros l _; reflexivity|].
    rewrite Hdoc by (symmetry; exact Hz). reflexivity.
  - assert (maps w !! fresh (dom (maps w)) = None) as Hfresh.
    { apply not_elem_of_dom, is_fresh. }
    assert (m ≠ ∅) as Hne by (intros He; rewrite He, map_size_empty in Hz; congruence).
    eexists _, _. split; [reflexivity|]. cbn [Task_ PublicKey Signature with_Params Params].
    assert (deref (set_maps (<[fresh (dom (maps w)) := m]> (maps w)) w)
                  (Some (fresh (dom (maps w)))) = m) as Hd.
    { cbn. rewrite lookup_insert_eq. reflexivity. }
    split; [reflexivity|]. split; [reflexivity|]. split; [reflexivity|].
    split; [exact Hd|].
    split; [intros He; contradiction|].
    split; [intros _; eauto|].
    split.
    + intros l Hl. cbn. apply lookup_insert_ne. intros <-.
      rewrite Hfresh in Hl. destruct Hl; discriminate.
    + rewrite Hdoc by exact Hd. reflexivity.
Qed.



End documents.

Lemma Task_document_determines_task_witness :
  with_Params None (with_Params None Sample.task) = with_Params None Sample.task ∧
  deref (set_maps ∅ Sample.world) (Params (with_Params None Sample.task)) =
    deref (set_maps {[ 5%positive := ∅ ]} Sample.world) (Params (with_Params (Some 5%positive) Sample.task)).
Proof.
  destruct (Task_to_json (set_maps ∅ Sample.world) (with_Params None Sample.task))
    as [doc|] eqn:Hd; [|vm_compute in Hd; discriminate].
  apply (@Task_document_determines_task Sample.primitives
           (set_maps ∅ Sample.world) (set_maps {[ 5%positive := ∅ ]} Sample.world)
           (with_Params None Sample.task) (with_Params (Some 5%positive) Sample.task) doc).
  - apply Sample_task_wf.
  - apply Sample_task_wf.
  - unfold Task_utf8, utf8_valid. do 7 (split; [vm_compute; reflexivity|]).
    intros k v Hkv. cbn in Hkv. rewrite lookup_empty in Hkv. discriminate.
  - unfold Task_utf8, utf8_valid. do 7 (split; [vm_compute; reflexivity|]).
    intros k v Hkv. cbn in Hkv. rewrite lookup_singleton_eq in Hkv. cbn in Hkv.
    rewrite lookup_empty in Hkv. discriminate.
  - exact Sample_task_exact.
  - exact Sample_task_exact.
  - exact Hd.
  - rewrite <- Hd. vm_compute. reflexivity.
Defined.


Lemma roundtrip_restores_fields_witness :
  match json_Marshal_SignedTask Sample.world Sample.signed with
  | Ok doc =>
      ∃ w' st',
        json_Unmarshal_SignedTask Sample.world doc = Ok (w', st') ∧
        with_Params None (Task_ st') = with_Params None Sample.task ∧
        json_Marshal_SignedTask w' st' = Ok doc
  | Err _ => False
  end.
Proof.
  destruct (json_Marshal_SignedTask Sample.world Sample.signed) as [doc|] eqn:Hm;
    [|vm_compute in Hm; discriminate].
  destruct (@roundtrip_restores_fields Sample.primitives Sample_base64
              Sample.world Sample.signed doc Sample_task_wf Sample_task_utf8 Sample_task_exact Hm)
    as (w' & st' & H1 & H2 & _ & _ & _ & _ & _ & _ & H9).
  exists w', st'. auto.
Defined.

(** ** The infrastructure module *)

(** X14. Whatever the inputs, the instance carries every common tag with its
    value, among them the engagement, the expiry and [AutoTeardown = true]
    that teardown relies on; [merge] adds the [Name] tag and
    replaces none of the common ones, so there are nine tags. *)
Theorem instance_tags_keep_common_tags (v : Terraform.Variables) :
  (∀ k x, Terraform.common_tags v !! k = Some x → Terraform.instance_tags v !! k = Some x) ∧
  Terraform.instance_tags v !! "Name" = Some ("rte-a-" +:+ Terraform.engagement_id v) ∧
  Terraform.instance_tags v !! "Engagement" = Some (Terraform.engagement_id v) ∧
  Terraform.instance_tags v !! "ExpiresAfter" = Some (Terraform.expiration_rfc3339 v) ∧
  Terraform.instance_tags v !! "AutoTeardown" = Some "true" ∧
  Terraform.instance_tags v !! "Owner" = Some (Terraform.operator_email v) ∧
  Terraform.instance_tags v !! "CreatedBy" = Some (Terraform.operator_email v) ∧
  size (Terraform.instance_tags v) = 9%nat.
Proof.
  assert (Terraform.common_tags v !! "Name" = None) as Hname by reflexivity.
  assert (∀ k x, Terraform.common_tags v !! k = Some x →
                 Terraform.instance_tags v !! k = Some x) as Hkeep.
  { intros k x Hk. unfold Terraform.instance_tags, Terraform.merge.
    rewrite lookup_union_r; [exact Hk|].
    apply lookup_singleton_ne. intros <-. congruence. }
  split; [exact Hkeep|].
  split.
  { unfold Terraform.instance_tags, Terraform.merge.
    rewrite (lookup_union_Some_l _ _ _ ("rte-a-" +:+ Terraform.engagement_id v));
      [reflexivity | apply lookup_singleton_eq]. }
  do 5 (split; [apply Hkeep; reflexivity|]).
  unfold Terraform.instance_tags, Terraform.merge.
  rewrite map_size_disj_union.
  - rewrite map_size_singleton. reflexivity.
  - apply map_disjoint_singleton_l. exact Hname.
Qed.
